(** * IntelliShieldX AI engine: streaming chat with timeout fallback

  A shallow embedding of [model/llm/model_manager.py],
  [model/llm/chat_handler.py] and the [/api/chat/stream] route of
  [model/app.py], with the properties of the candidate selector, the
  liveness monitor and the fallback orchestrator.

  Conventions.
  - Python [str] is [string]; a dict literal is an association list in
    insertion order (the iteration order of [dict.items()]).
  - Time is an integer number of milliseconds ([Z]); [timeout] is the
    integer number of seconds the route passes down, the quiet period
    [10] reads [10000] and the polling wait [0.5] reads [500].
  - The clock never stands still: a statement takes a positive time,
    small against a millisecond.  An instant of the model is a whole
    number of milliseconds, and [time.time()] read at that instant gives
    more, by less than a millisecond; of two reads the later gives the
    greater value.  So the difference of two reads exceeds a whole number
    [c] of milliseconds as soon as their instants are [c] apart: the
    source's [elapsed > timeout] reads [elapsed >=? 1000 * timeout], and
    [time_since_last_chunk > 10] reads [time_since_last_chunk >=? 10000].
  - The [cost] entries of the registry (floats) are left out; no
    function of the core reads them. *)

From Stdlib Require Import List String Ascii ZArith NArith Lia Bool DecimalString.
From Stdlib Require Import Sorting.Sorted Sorting.Permutation.
Import ListNotations.

Local Open Scope string_scope.
Local Open Scope Z_scope.

(** ** Python values shared by the modules *)

(** An exception object: its class (as far as the [except] clauses of the
  program tell classes apart) and [str(e)]. *)
Inductive exn_class : Type :=
| ExceptionC      (* Exception and every class not listed below *)
| TimeoutErrorC   (* TimeoutError *)
| ValueErrorC     (* ValueError *)
| AttributeErrorC (* AttributeError *).

Record exn : Type := mkExn { exn_cls : exn_class; exn_str : string }.

(** The result of a call that may raise. *)
Inductive result (A : Type) : Type :=
| Ok (a : A)
| Raise (e : exn).
Arguments Ok {A} a.
Arguments Raise {A} e.

Module Py.

(** [needle in hay] on strings. *)
Fixpoint contains (needle hay : string) : bool :=
  prefix needle hay ||
  match hay with
  | EmptyString => false
  | String _ hay' => contains needle hay'
  end.

Definition lower_ascii (c : ascii) : ascii :=
  let n := N_of_ascii c in
  if ((65 <=? n) && (n <=? 90))%N then ascii_of_N (n + 32) else c.

(** [s.lower()], on ASCII letters. *)
Fixpoint lower (s : string) : string :=
  match s with
  | EmptyString => EmptyString
  | String c s' => String (lower_ascii c) (lower s')
  end.

Definition is_space (c : ascii) : bool :=
  let n := N_of_ascii c in
  ((n =? 32) || ((9 <=? n) && (n <=? 13)) || ((28 <=? n) && (n <=? 31)))%N.

(** [s.strip() == ""]: the string holds white space only. *)
Fixpoint strip_is_empty (s : string) : bool :=
  match s with
  | EmptyString => true
  | String c s' => is_space c && strip_is_empty s'
  end.

(** [x in l] for a list of strings. *)
Definition mem (x : string) (l : list string) : bool :=
  existsb (String.eqb x) l.

(** [d.get(k)] on a dict in insertion order. *)
Fixpoint dict_get {V : Type} (d : list (string * V)) (k : string) : option V :=
  match d with
  | [] => None
  | (k', v) :: d' => if String.eqb k k' then Some v else dict_get d' k
  end.

(** [d.get(k, default)]. *)
Definition dict_get_default {V : Type} (d : list (string * V)) (k : string) (v0 : V) : V :=
  match dict_get d k with
  | Some v => v
  | None => v0
  end.

(** [next((x for x in l if p(x)), None)]. *)
Definition next_or_none {A : Type} (p : A -> bool) (l : list A) : option A :=
  find p l.

(** [str(n)] for an int. *)
Definition str_of_int (n : Z) : string :=
  match n with
  | Z0 => "0"
  | Zpos p => NilEmpty.string_of_uint (Pos.to_uint p)
  | Zneg p => String "-" (NilEmpty.string_of_uint (Pos.to_uint p))
  end.

(** [list.sort(key=...)]: the keys are computed first, one per element,
    and the sort is stable.  Keys here are pairs of ints compared
    lexicographically. *)
Definition key : Type := (Z * Z)%type.

Definition key_leb (a b : key) : bool :=
  (fst a <? fst b) || ((fst a =? fst b) && (snd a <=? snd b)).

Definition key_le (a b : key) : Prop :=
  fst a < fst b \/ (fst a = fst b /\ snd a <= snd b).

Fixpoint insert_keyed {A : Type} (x : key * A) (l : list (key * A)) : list (key * A) :=
  match l with
  | [] => [x]
  | y :: l' => if key_leb (fst x) (fst y) then x :: y :: l' else y :: insert_keyed x l'
  end.

Fixpoint sort_keyed {A : Type} (l : list (key * A)) : list (key * A) :=
  match l with
  | [] => []
  | x :: l' => insert_keyed x (sort_keyed l')
  end.

(** Computing the keys: the first key function that raises aborts the
    sort. *)
Fixpoint decorate {A : Type} (f : A -> result key) (l : list A) : result (list (key * A)) :=
  match l with
  | [] => Ok []
  | x :: l' =>
      match f x with
      | Raise e => Raise e
      | Ok k =>
          match decorate f l' with
          | Raise e => Raise e
          | Ok kl => Ok ((k, x) :: kl)
          end
      end
  end.

Definition sort_by_key {A : Type} (f : A -> result key) (l : list A) : result (list A) :=
  match decorate f l with
  | Raise e => Raise e
  | Ok kl => Ok (map snd (sort_keyed kl))
  end.

(** [s.lstrip()], [s.rstrip()] and [s.strip()], on ASCII white space. *)
Fixpoint lstrip (s : string) : string :=
  match s with
  | EmptyString => EmptyString
  | String c s' => if is_space c then lstrip s' else s
  end.

Fixpoint rstrip (s : string) : string :=
  match s with
  | EmptyString => EmptyString
  | String c s' =>
      match rstrip s' with
      | EmptyString => if is_space c then EmptyString else String c EmptyString
      | r => String c r
      end
  end.

Definition strip (s : string) : string := rstrip (lstrip s).

(** [s.startswith(p)] and [s.endswith(p)]. *)
Definition startswith (p s : string) : bool := prefix p s.

Fixpoint endswith (p s : string) : bool :=
  String.eqb s p ||
  match s with
  | EmptyString => false
  | String _ s' => endswith p s'
  end.

(** [s[n:]] and [s[:-n]] (for [n > 0]). *)
Fixpoint drop (n : nat) (s : string) : string :=
  match n, s with
  | O, _ => s
  | S n', String _ s' => drop n' s'
  | S _, EmptyString => EmptyString
  end.

Fixpoint drop_last (n : nat) (s : string) : string :=
  match s with
  | EmptyString => EmptyString
  | String c s' => if (String.length s' <? n)%nat then EmptyString else String c (drop_last n s')
  end.

(** The order of a sorted list: on keyed elements, and on the elements
    themselves under their key function. *)
Definition keyed_le {A : Type} (a b : key * A) : Prop := key_le (fst a) (fst b).

Definition sorted_by_key {A : Type} (f : A -> result key) (a b : A) : Prop :=
  exists ka kb, f a = Ok ka /\ f b = Ok kb /\ key_le ka kb.

End Py.

(** ** model_manager.py *)

Module ModelManager.

(** The provider handles the manager may hold.  The OpenAI and Anthropic
    fields only ever hold [None]. *)
Inductive client_handle : Type :=
| GroqHandle   (* Groq(api_key=...) *)
| GoogleHandle (* the configured google.generativeai module *).

(** One entry of [self.models]. *)
Record model_config : Type := mkModel {
  id : string;
  name : string;
  provider : string;
  category : string;
  client : string;
  groq_model_name : option string;
  google_model_name : option string;
  max_tokens : Z
}.

(** One entry of the list [get_available_models] returns. *)
Record available_model : Type := mkAvailable {
  a_id : string;
  a_name : string;
  a_provider : string;
  a_category : string;
  a_maxTokens : Z;
  a_available : bool
}.

Record t : Type := mkManager {
  openai_client : option client_handle;
  anthropic_client : option client_handle;
  groq_client : option client_handle;
  google_client : option client_handle;
  models : list (string * model_config);
  plan_access : list (string * list string);
  free_tier_unauthenticated_providers : list string;
  free_tier_authenticated_providers : list string
}.

(** What [__init__] reads from its environment: the four API keys, and
    whether the two client constructors return or raise. *)
Record environment : Type := mkEnv {
  OPENAI_API_KEY : option string;
  ANTHROPIC_API_KEY : option string;
  GROQ_API_KEY : option string;
  GOOGLE_API_KEY : option string;
  groq_constructor_ok : bool;
  google_configure_ok : bool
}.

(** [if os.getenv(K):] *)
Definition truthy (k : option string) : bool :=
  match k with
  | Some (String _ _) => true
  | _ => false
  end.

Definition placeholder (k literal : string) : bool :=
  Py.strip_is_empty k || String.eqb k literal || Py.contains "your" (Py.lower k).

Definition init_openai (env : environment) : option client_handle :=
  if truthy (OPENAI_API_KEY env) then None else None.

Definition init_anthropic (env : environment) : option client_handle :=
  if truthy (ANTHROPIC_API_KEY env) then None else None.

Definition init_groq (env : environment) : option client_handle :=
  match GROQ_API_KEY env with
  | Some k =>
      if truthy (Some k) then
        if placeholder k "your-groq-api-key-here" then None
        else if groq_constructor_ok env then Some GroqHandle else None
      else None
  | None => None
  end.

Definition init_google (env : environment) : option client_handle :=
  match GOOGLE_API_KEY env with
  | Some k =>
      if truthy (Some k) then
        if placeholder k "your-google-api-key-here" then None
        else if google_configure_ok env then Some GoogleHandle else None
      else None
  | None => None
  end.

Definition registry : list (string * model_config) :=
  [ ("gpt-3.5-turbo",
     mkModel "gpt-3.5-turbo" "GPT-3.5 Turbo" "OpenAI" "basic" "openai" None None 16385);
    ("gpt-4-turbo",
     mkModel "gpt-4-turbo" "GPT-4 Turbo" "OpenAI" "standard" "openai" None None 128000);
    ("gpt-4o",
     mkModel "gpt-4o" "GPT-4o" "OpenAI" "advanced" "openai" None None 128000);
    ("claude-3-haiku",
     mkModel "claude-3-haiku" "Claude 3 Haiku" "Anthropic" "basic" "anthropic" None None 200000);
    ("claude-3-sonnet",
     mkModel "claude-3-sonnet" "Claude 3 Sonnet" "Anthropic" "standard" "anthropic" None None 200000);
    ("claude-3-opus",
     mkModel "claude-3-opus" "Claude 3 Opus" "Anthropic" "advanced" "anthropic" None None 200000);
    ("mixtral-8x7b",
     mkModel "mixtral-8x7b" "Llama 3.1 8B Instant" "Groq" "basic" "groq"
             (Some "llama-3.1-8b-instant") None 8192);
    ("llama-3.3-70b",
     mkModel "llama-3.3-70b" "Llama 3.3 70B Versatile" "Groq" "standard" "groq"
             (Some "llama-3.3-70b-versatile") None 131072);
    ("gemini-pro",
     mkModel "gemini-pro" "Gemini 1.5 Flash" "Google" "standard" "google"
             None (Some "gemini-1.5-flash") 32768) ].

(** [ModelManager.__init__]. *)
Definition init (env : environment) : t :=
  {| openai_client := init_openai env;
     anthropic_client := init_anthropic env;
     groq_client := init_groq env;
     google_client := init_google env;
     models := registry;
     plan_access :=
       [ ("free", ["basic"]);
         ("standard", ["basic"; "standard"]);
         ("pro", ["basic"; "standard"; "advanced"]);
         ("enterprise", ["basic"; "standard"; "advanced"; "enterprise"]) ];
     free_tier_unauthenticated_providers := ["Groq"];
     free_tier_authenticated_providers := ["Groq"; "Google"] |}.

Definition is_some {A : Type} (o : option A) : bool :=
  match o with Some _ => true | None => false end.

(** The [client_available] flag of [get_available_models]. *)
Definition client_available (self : t) (cfg : model_config) : bool :=
  if String.eqb (client cfg) "openai" then false
  else if String.eqb (client cfg) "anthropic" then false
  else if String.eqb (client cfg) "groq" && is_some (groq_client self) then true
  else if String.eqb (client cfg) "google" && is_some (google_client self) then true
  else false.

(** The provider restriction of the free plan; [true] when the entry is
    skipped ([continue]). *)
Definition provider_excluded (self : t) (user_plan : string) (is_authenticated : bool)
           (cfg : model_config) : bool :=
  if String.eqb user_plan "free" then
    if negb is_authenticated then
      negb (Py.mem (provider cfg) (free_tier_unauthenticated_providers self))
    else
      negb (Py.mem (provider cfg) (free_tier_authenticated_providers self))
  else false.

Definition get_available_models (self : t) (user_plan : string) (is_authenticated : bool)
  : list available_model :=
  let allowed_categories := Py.dict_get_default (plan_access self) user_plan ["basic"] in
  flat_map
    (fun entry : string * model_config =>
       let model_config := snd entry in
       if Py.mem (category model_config) allowed_categories then
         if provider_excluded self user_plan is_authenticated model_config then []
         else
           [ {| a_id := id model_config;
                a_name := name model_config;
                a_provider := provider model_config;
                a_category := category model_config;
                a_maxTokens := max_tokens model_config;
                a_available := client_available self model_config |} ]
       else [])
    (models self).

Definition get_model_config (self : t) (model_id : string) : option model_config :=
  Py.dict_get (models self) model_id.

Definition get_client (self : t) (model_id : string) : result (option client_handle) :=
  match get_model_config self model_id with
  | None => Raise (mkExn ValueErrorC ("Model " ++ model_id ++ " not found"))
  | Some model_config =>
      let client_type := client model_config in
      if String.eqb client_type "openai" then Ok (openai_client self)
      else if String.eqb client_type "anthropic" then Ok (anthropic_client self)
      else if String.eqb client_type "groq" then Ok (groq_client self)
      else if String.eqb client_type "google" then Ok (google_client self)
      else Raise (mkExn ValueErrorC ("Unknown client type: " ++ client_type))
  end.

Definition priority_order : list (string * Z) :=
  [ ("groq", 1); ("google", 2); ("openai", 99); ("anthropic", 99) ].

Definition get_priority (self : t) (model_id : string) : Z :=
  match get_model_config self model_id with
  | Some config => Py.dict_get_default priority_order (client config) 99
  | None => 99
  end.

Definition category_order : list (string * Z) :=
  [ ("basic", 1); ("standard", 2); ("advanced", 3); ("enterprise", 4) ].

(** The key of the sort: [self.get_model_config(m).get(...)] raises an
    AttributeError when the id has no entry. *)
Definition sort_key (self : t) (m : string) : result Py.key :=
  match get_model_config self m with
  | Some config =>
      Ok (get_priority self m, Py.dict_get_default category_order (category config) 5)
  | None =>
      Raise (mkExn AttributeErrorC "'NoneType' object has no attribute 'get'")
  end.

(** The ids of the entries with [m.get("available", False) and
    m.get("enabled", True)]; no entry has an ["enabled"] key. *)
Definition available_model_ids (self : t) (user_plan : string) (is_authenticated : bool)
  : list string :=
  map a_id (filter a_available (get_available_models self user_plan is_authenticated)).

Definition get_fallback_models (self : t) (primary_model_id user_plan : string)
           (is_authenticated : bool) : result (list string) :=
  let available_model_ids := available_model_ids self user_plan is_authenticated in
  let fallback_models :=
    filter (fun m => negb (String.eqb m primary_model_id)) available_model_ids in
  Py.sort_by_key (sort_key self) fallback_models.

(** The order of a fallback list: the rank of the provider first, the rank
    of the capability tier second. *)
Definition provider_rank (client_type : string) : Z :=
  Py.dict_get_default priority_order client_type 99.

Definition tier_rank (category_name : string) : Z :=
  Py.dict_get_default category_order category_name 5.

Definition ranked_before (self : t) (a b : string) : Prop :=
  exists ca cb,
    get_model_config self a = Some ca /\ get_model_config self b = Some cb /\
    (provider_rank (client ca) < provider_rank (client cb) \/
     (provider_rank (client ca) = provider_rank (client cb) /\
      tier_rank (category ca) <= tier_rank (category cb))).

(** The ids of the registry, in order. *)
Definition registered_ids (self : t) : list string :=
  map (fun entry => id (snd entry)) (models self).

(** The registry is keyed by the ids of its entries. *)
Definition keyed_by_id (self : t) : Prop :=
  Forall (fun entry : string * model_config => fst entry = id (snd entry)) (models self).

End ModelManager.

(** ** chat_handler.py *)

Module ChatHandler.

(** *** The provider call, as the worker thread meets it

    A provider call is a finite script of timed items.  The time of an item
    is measured from [thread.start()]; an item happens once its own time and
    the times of all items before it have come.  A script without
    [Exhausted] or [Raises] is a call that blocks for ever after its last
    item. *)
Inductive provider_item : Type :=
| Chunk (content : string) (* the stream delivers a chunk; [""] when it carries no text *)
| Exhausted                (* the stream ends *)
| Raises (e : exn)         (* the call, or the iteration, raises *).

Definition provider_stream : Type := list (Z * provider_item).

(** The objects [_stream_with_timeout] shares with its worker thread, and
    [thread.is_alive()]. *)
Record shared : Type := mkShared {
  result_queue : list string;
  error_queue : list exn;
  stop_event : bool;
  completion_event : bool;
  thread_alive : bool
}.

Definition fresh : shared :=
  {| result_queue := []; error_queue := []; stop_event := false;
     completion_event := false; thread_alive := true |}.

Definition put (chunk : string) (s : shared) : shared :=
  {| result_queue := (result_queue s ++ [chunk])%list; error_queue := error_queue s;
     stop_event := stop_event s; completion_event := completion_event s;
     thread_alive := thread_alive s |}.

Definition put_error (e : exn) (s : shared) : shared :=
  {| result_queue := result_queue s; error_queue := (error_queue s ++ [e])%list;
     stop_event := stop_event s; completion_event := completion_event s;
     thread_alive := thread_alive s |}.

Definition with_queues (q : list string) (errors : list exn) (s : shared) : shared :=
  {| result_queue := q; error_queue := errors;
     stop_event := stop_event s; completion_event := completion_event s;
     thread_alive := thread_alive s |}.

Definition set_stop (s : shared) : shared :=
  {| result_queue := result_queue s; error_queue := error_queue s;
     stop_event := true; completion_event := completion_event s;
     thread_alive := thread_alive s |}.

(** [completion_event.set()] is the worker's last statement on both of its
    paths; the thread is taken to end with it. *)
Definition complete (s : shared) : shared :=
  {| result_queue := result_queue s; error_queue := error_queue s;
     stop_event := stop_event s; completion_event := true;
     thread_alive := false |}.

(** The four branches of [stream_worker] differ in the test that guards
    [result_queue.put]: the Anthropic branch has none, the others put a
    chunk only when its text is truthy. *)
Definition known_client (kind : string) : bool :=
  Py.mem kind ["openai"; "anthropic"; "groq"; "google"].

Definition puts (kind content : string) : bool :=
  if String.eqb kind "anthropic" then true
  else negb (String.eqb content "").

(** With a [model_config["client"]] none of the branches matches, the worker
    makes no call and sets the completion event at once. *)
Definition worker_script (kind : string) (stream : provider_stream) : provider_stream :=
  if known_client kind then stream else [(0, Exhausted)].

(** One turn of [stream_worker] on the next item of the provider. *)
Definition worker_step (kind : string) (it : provider_item) (s : shared) : shared :=
  match it with
  | Chunk content =>
      if stop_event s then complete s
      else if puts kind content then put content s
      else s
  | Exhausted => complete s
  | Raises e => complete (put_error e s)
  end.

(** The worker runs up to time [limit]. *)
Fixpoint run_worker (kind : string) (limit : Z) (todo : provider_stream) (s : shared)
  : shared * provider_stream :=
  match todo with
  | [] => (s, [])
  | (t, it) :: todo' =>
      if t <=? limit then
        let s' := worker_step kind it s in
        if thread_alive s' then run_worker kind limit todo' s' else (s', [])
      else (s, todo)
  end.

(** The worker runs while the monitor is blocked in
    [result_queue.get(timeout=0.5)] on an empty queue: up to the first put,
    which wakes the monitor, or up to [limit]. *)
Fixpoint wait_put (kind : string) (limit cur : Z) (todo : provider_stream) (s : shared)
  : option (Z * string) * shared * provider_stream :=
  match todo with
  | [] => (None, s, [])
  | (t, it) :: todo' =>
      if t <=? limit then
        let s' := worker_step kind it s in
        let cur' := Z.max cur t in
        match result_queue s' with
        | chunk :: q =>
            (Some (cur', chunk), with_queues q (error_queue s') s',
             if thread_alive s' then todo' else [])
        | [] =>
            if thread_alive s' then wait_put kind limit cur' todo' s' else (None, s', [])
        end
      else (None, s, todo)
  end.

(** [result_queue.get(timeout=0.5)] at time [now]: the chunk ([None] for
    [queue.Empty]), the time at which the call returns, and the worker's
    progress. *)
Definition get (kind : string) (now : Z) (todo : provider_stream) (s : shared)
  : option string * Z * shared * provider_stream :=
  match result_queue s with
  | chunk :: q => (Some chunk, now, with_queues q (error_queue s) s, todo)
  | [] =>
      match wait_put kind (now + 500) now todo s with
      | (Some (t, chunk), s', todo') => (Some chunk, t, s', todo')
      | (None, s', todo') => (None, now + 500, s', todo')
      end
  end.

(** *** _stream_with_timeout *)

(** The five ways out of the [while True] loop. *)
Inductive exit_point : Type :=
| ExitTimeout          (* stop_event.set(); raise TimeoutError(...) *)
| ExitQuiet            (* data received, 10 s without a chunk, completion set: break *)
| ExitError (e : exn)  (* error = error_queue.get(); stop_event.set(); raise error *)
| ExitDrained          (* completion set and result queue empty: break *)
| ExitDead             (* queue.Empty, thread dead, queue empty, completion set: break *).

(** One run of the generator [_stream_with_timeout], driven to its end. *)
Record attempt : Type := mkAttempt {
  yields : list string;
  exit : exit_point;
  end_time : Z;
  final : shared
}.

Definition yield_first (chunk : string) (a : attempt) : attempt :=
  {| yields := chunk :: yields a; exit := exit a; end_time := end_time a; final := final a |}.

Definition is_nil {A : Type} (l : list A) : bool :=
  match l with [] => true | _ :: _ => false end.

(** The [while True] loop.  [consumer] gives, for each [yield], how long the
    consumer of the generator takes before it asks for the next value, in
    whole milliseconds.  The instants of the loop move in [get] and at
    [yield] only; its other statements take the small positive time that
    makes each read of the clock greater than the one before.  The two
    clock tests are therefore true from the instant on at which the model's
    difference reaches the bound: with a deadline of one second and a
    worker that is silent for 1.2 s, the polls return at 0.5 s and at
    1.0 s, and the test [elapsed > timeout] that follows the second is
    true. *)
Fixpoint monitor (fuel : nat) (kind : string) (timeout start_time now : Z)
         (todo : provider_stream) (s : shared)
         (has_received_data : bool) (last_chunk_time : Z) (consumer : list N)
  : option attempt :=
  match fuel with
  | O => None
  | S fuel' =>
      let (s, todo) := run_worker kind now todo s in
      let elapsed := now - start_time in
      let time_since_last_chunk := now - last_chunk_time in
      if (elapsed >=? 1000 * timeout) && negb has_received_data then
        Some (mkAttempt [] ExitTimeout now (set_stop s))
      else if has_received_data && (time_since_last_chunk >=? 10000) && completion_event s then
        Some (mkAttempt [] ExitQuiet now s)
      else
        match error_queue s with
        | error :: errors =>
            Some (mkAttempt [] (ExitError error) now
                            (set_stop (with_queues (result_queue s) errors s)))
        | [] =>
            if completion_event s && is_nil (result_queue s) then
              Some (mkAttempt [] ExitDrained now s)
            else
              match get kind now todo s with
              | (Some chunk, now', s', todo') =>
                  let resumed := now' + Z.of_N (hd 0%N consumer) in
                  option_map (yield_first chunk)
                    (monitor fuel' kind timeout start_time resumed todo' s'
                             true now' (tl consumer))
              | (None, now', s', todo') =>
                  if negb (thread_alive s') && is_nil (result_queue s') && completion_event s'
                  then Some (mkAttempt [] ExitDead now' s')
                  else monitor fuel' kind timeout start_time now' todo' s'
                               has_received_data last_chunk_time consumer
              end
        end
  end.

(** [_stream_with_timeout]: fresh queues and events, the worker thread
    started at time 0, then the loop. *)
Definition _stream_with_timeout (fuel : nat) (kind : string) (stream : provider_stream)
           (timeout : Z) (consumer : list N) : option attempt :=
  monitor fuel kind timeout 0 0 (worker_script kind stream) fresh false 0 consumer.

(** The exception the generator ends with, if any. *)
Definition raised (model_id : string) (timeout : Z) (a : attempt) : option exn :=
  match exit a with
  | ExitTimeout =>
      Some (mkExn TimeoutErrorC
              ("Model " ++ model_id ++ " did not respond within "
                 ++ Py.str_of_int timeout ++ " seconds"))
  | ExitError e => Some e
  | ExitQuiet | ExitDrained | ExitDead => None
  end.

(** What the worker puts on the result queue when it is never stopped. *)
Fixpoint enqueued_by (kind : string) (todo : provider_stream) : list string :=
  match todo with
  | [] => []
  | (_, Chunk content) :: todo' =>
      if puts kind content then content :: enqueued_by kind todo' else enqueued_by kind todo'
  | (_, Exhausted) :: _ => []
  | (_, Raises _) :: _ => []
  end.

Definition enqueued (kind : string) (stream : provider_stream) : list string :=
  enqueued_by kind (worker_script kind stream).

(** Whether the worker reaches [completion_event.set()] when it is never
    stopped. *)
Fixpoint completes_by (todo : provider_stream) : bool :=
  match todo with
  | [] => false
  | (_, Chunk _) :: todo' => completes_by todo'
  | (_, Exhausted) :: _ => true
  | (_, Raises _) :: _ => true
  end.

Definition completes (kind : string) (stream : provider_stream) : bool :=
  completes_by (worker_script kind stream).

(** Whether the provider call raises. *)
Fixpoint raises_by (todo : provider_stream) : option exn :=
  match todo with
  | [] => None
  | (_, Chunk _) :: todo' => raises_by todo'
  | (_, Exhausted) :: _ => None
  | (_, Raises e) :: _ => Some e
  end.


(** The shared objects at a given time, when the monitor takes nothing
    from the queue and stops nothing. *)
Definition worker_state_at (kind : string) (stream : provider_stream) (time : Z) : shared :=
  fst (run_worker kind time (worker_script kind stream) fresh).

(** The states of an attempt in which the worker reaches
    [completion_event.set()]: nobody has set the stop event, the thread is
    alive exactly as long as the completion event is not set, and the rest
    of the script ends the call. *)
Definition live (todo : provider_stream) (s : shared) : Prop :=
  stop_event s = false /\
  thread_alive s = negb (completion_event s) /\
  (if completion_event s then todo = [] else completes_by todo = true).

(** The states of an attempt that the worker and the loop can reach: nobody
    has set the stop event, the thread is alive exactly as long as the
    completion event is not set, and a finished worker has nothing left to
    do. *)
Definition sane (todo : provider_stream) (s : shared) : Prop :=
  stop_event s = false /\
  thread_alive s = negb (completion_event s) /\
  (completion_event s = true -> todo = []).

(** The chunks the loop has still to yield: those on the queue, then those
    the worker has still to put. *)
Definition future (kind : string) (todo : provider_stream) (s : shared) : list string :=
  (result_queue s ++ enqueued_by kind todo)%list.

(** The chunks still to be taken from the queue, now or later. *)
Definition backlog (kind : string) (todo : provider_stream) (s : shared) : nat :=
  (List.length (result_queue s) + List.length (enqueued_by kind todo))%nat.

(** Every item of the script has happened by time [T]. *)
Definition due_by (T : Z) (todo : provider_stream) : Prop :=
  Forall (fun item : Z * provider_item => fst item <= T) todo.

(** *** stream_response *)

(** What a run of [stream_response] does, in order. *)
Inductive event : Type :=
| Yielded (chunk : string)    (* a value the generator yields *)
| Started (model_id : string) (* [_stream_with_timeout] is entered: a worker thread starts *)
| Slept (ms : Z)              (* [time.sleep] *).

(** How a generator ends. *)
Inductive ending : Type :=
| Returned
| Raised (e : exn).

(** [last_error or 'Unknown error']: [None] and the empty string are falsy. *)
Definition or_unknown (last_error : option string) : string :=
  match last_error with
  | Some (String c s) => String c s
  | _ => "Unknown error"
  end.

Definition switch_notice (model_name : string) : string :=
  String "010" (String "010" ("[Switching to " ++ model_name ++ " due to timeout...]"
    ++ String "010" (String "010" ""))).

Definition error_fragment (error_msg : string) : string :=
  String "010" (String "010" ("[Error: " ++ error_msg ++ "]")).

Definition all_failed_msg (last_error : option string) : string :=
  "All available models failed. Last error: " ++ or_unknown last_error.

Definition timed_out_msg (current_model_id : string) (timeout : Z) : string :=
  "Model " ++ current_model_id ++ " timed out after " ++ Py.str_of_int timeout ++ " seconds".

(** The two [except] clauses of the loop body. *)
Definition caught (current_model_id : string) (timeout : Z) (e : exn) : string :=
  match exn_cls e with
  | TimeoutErrorC => timed_out_msg current_model_id timeout
  | _ => exn_str e
  end.

Definition prepend (evs : list event) (r : option (list event * ending))
  : option (list event * ending) :=
  match r with
  | Some (evs', e) => Some ((evs ++ evs')%list, e)
  | None => None
  end.

Section Orchestrator.

(** The call [self._stream_with_timeout(client, message, current_model_id,
    enhanced_prompt, model_config, timeout)] driven to its end; [None] when
    it has none. *)
Variable run : string -> ModelManager.model_config -> Z -> option attempt.

Variable self_model_manager : ModelManager.t.

(** The [for attempt, current_model_id in enumerate(models_to_try)] loop and
    what follows it. *)
Fixpoint try_models (timeout : Z) (attempt : Z) (models_to_try : list string)
         (last_error : option string) : option (list event * ending) :=
  match models_to_try with
  | [] =>
      let error_msg := all_failed_msg last_error in
      Some ([Yielded (error_fragment error_msg)], Raised (mkExn ExceptionC error_msg))
  | current_model_id :: rest =>
      match ModelManager.get_model_config self_model_manager current_model_id with
      | None => try_models timeout (attempt + 1) rest last_error
      | Some model_config =>
          match ModelManager.get_client self_model_manager current_model_id with
          | Raise e =>
              try_models timeout (attempt + 1) rest
                         (Some (caught current_model_id timeout e))
          | Ok None => try_models timeout (attempt + 1) rest last_error
          | Ok (Some client) =>
              let notice :=
                if attempt >? 0
                then [Yielded (switch_notice (ModelManager.name model_config))]
                else [] in
              match run current_model_id model_config timeout with
              | None => None
              | Some a =>
                  let evs := (notice ++ Started current_model_id :: map Yielded (yields a))%list in
                  match raised current_model_id timeout a with
                  | None => Some (evs, Returned)
                  | Some e =>
                      prepend evs
                        (try_models timeout (attempt + 1) rest
                                    (Some (caught current_model_id timeout e)))
                  end
              end
          end
      end
  end.

(** [models_to_try = [model_id] + self.model_manager.get_fallback_models(...)] *)
Definition models_to_try (model_id user_plan : string) (is_authenticated : bool)
  : result (list string) :=
  match ModelManager.get_fallback_models self_model_manager model_id user_plan is_authenticated with
  | Raise e => Raise e
  | Ok fallback => Ok (model_id :: fallback)
  end.

(** [stream_response]; the prompt texts play no part in the control flow and
    are left out. *)
Definition stream_response (model_id user_plan : string) (is_authenticated : bool)
           (timeout : Z) : option (list event * ending) :=
  match models_to_try model_id user_plan is_authenticated with
  | Raise e => Some ([], Raised e)
  | Ok models => try_models timeout 0 models None
  end.

End Orchestrator.

(** The attempts of one request: what each provider does when called for a
    model, and how fast the consumer takes the chunks of that attempt. *)
Record providers : Type := mkProviders {
  stream_of : string -> provider_stream;
  consumer_of : string -> list N
}.

Definition run_with (fuel : nat) (p : providers)
  : string -> ModelManager.model_config -> Z -> option attempt :=
  fun current_model_id model_config timeout =>
    _stream_with_timeout fuel (ModelManager.client model_config)
                         (stream_of p current_model_id) timeout
                         (consumer_of p current_model_id).

Definition yielded (evs : list event) : list string :=
  flat_map (fun ev => match ev with Yielded c => [c] | _ => [] end) evs.

Definition started (evs : list event) : list string :=
  flat_map (fun ev => match ev with Started m => [m] | _ => [] end) evs.

(** The events of one attempt, with its switch notice. *)
Definition attempt_events (index : Z) (current_model_id : string)
           (model_config : ModelManager.model_config) (a : attempt) : list event :=
  ((if index >? 0 then [Yielded (switch_notice (ModelManager.name model_config))] else [])
     ++ Started current_model_id :: map Yielded (yields a))%list.

(** Where the errors on the error queue come from: each is the error the
    provider call raises, and as long as the completion event is not set the
    rest of the script still decides whether the call raises. *)
Definition error_source (R : option exn) (todo : provider_stream) (s : shared) : Prop :=
  (forall e, In e (error_queue s) -> R = Some e) /\
  (completion_event s = false -> raises_by todo = R).

(** A candidate for which the loop of [stream_response] reaches
    [_stream_with_timeout]: it has a configuration and a client. *)
Definition attemptable (self : ModelManager.t) (m : string) : bool :=
  match ModelManager.get_model_config self m, ModelManager.get_client self m with
  | Some _, Ok (Some _) => true
  | _, _ => false
  end.

(** A candidate whose attempt ends without raising. *)
Definition attempt_ok (run : string -> ModelManager.model_config -> Z -> option attempt)
           (self : ModelManager.t) (timeout : Z) (m : string) : bool :=
  match ModelManager.get_model_config self m with
  | Some cfg =>
      match run m cfg timeout with
      | Some a => match raised m timeout a with None => true | Some _ => false end
      | None => false
      end
  | None => false
  end.

(** *** The generators without worker thread

    [_stream_openai], [_stream_anthropic], [_stream_groq] and
    [_stream_google] iterate over the provider call themselves and turn an
    error into a last chunk of text.  A run is the list of the values
    yielded, and whether the generator ends ([false]: the provider call
    blocks for ever). *)
Definition plain_error_text (e : exn) : string :=
  String "010" (String "010" ("[Error: " ++ exn_str e ++ "]")).

Definition groq_error_text (groq_model_name : string) (e : exn) : string :=
  let error_msg := exn_str e in
  if Py.contains "Invalid API Key" error_msg || Py.contains "401" error_msg
     || Py.contains "invalid_api_key" error_msg
  then String "010" (String "010"
         "[Error: Invalid Groq API Key. Please check your GROQ_API_KEY environment variable in the .env file.]")
  else if Py.contains "model" (Py.lower error_msg) && Py.contains "not found" (Py.lower error_msg)
  then String "010" (String "010"
         ("[Error: Groq model '" ++ groq_model_name
            ++ "' not found. Please check the model name in the configuration.]"))
  else String "010" (String "010" ("[Error: " ++ error_msg ++ "]")).

Fixpoint iterate (kind : string) (error_text : exn -> string) (todo : provider_stream)
  : list string * bool :=
  match todo with
  | [] => ([], false)
  | (_, Chunk content) :: todo' =>
      let (rest, ended) := iterate kind error_text todo' in
      (if puts kind content then content :: rest else rest, ended)
  | (_, Exhausted) :: _ => ([], true)
  | (_, Raises e) :: _ => ([error_text e], true)
  end.

Definition _stream_openai (stream : provider_stream) : list string * bool :=
  iterate "openai" plain_error_text stream.

Definition _stream_anthropic (stream : provider_stream) : list string * bool :=
  iterate "anthropic" plain_error_text stream.

Definition _stream_google (stream : provider_stream) : list string * bool :=
  iterate "google" plain_error_text stream.

(** [_stream_groq] looks the configuration up inside its [try]: without
    one, [model_config.get] raises before the provider is called. *)
Definition _stream_groq (self : ModelManager.t) (model_id : string) (stream : provider_stream)
  : list string * bool :=
  match ModelManager.get_model_config self model_id with
  | None =>
      ([groq_error_text model_id
          (mkExn AttributeErrorC "'NoneType' object has no attribute 'get'")], true)
  | Some model_config =>
      iterate "groq"
              (groq_error_text
                 (match ModelManager.groq_model_name model_config with
                  | Some n => n
                  | None => model_id
                  end))
              stream
  end.

(** The elements of a list up to, and with, the first that passes a test. *)
Fixpoint upto_first {A : Type} (p : A -> bool) (l : list A) : list A :=
  match l with
  | [] => []
  | x :: l' => if p x then [x] else x :: upto_first p l'
  end.

End ChatHandler.

(** ** app.py: the /api/chat/stream route *)

Module App.

(** The JSON body of the request, as far as the route reads it.  [timeout]
    is the outcome of [int(data.get("timeout", 30))]. *)
Record request : Type := mkRequest {
  message : option string;
  modelId : option string;
  userPlan : option string;
  isAuthenticated : option bool;
  timeout : result Z
}.

(** One record of the event stream. *)
Inductive sse : Type :=
| Content (chunk : string)              (* data: {"content": chunk} *)
| Error (error : string) (type : string) (* data: {"error": ..., "type": ...} *)
| Done                                   (* data: [DONE] *).

Definition or_default {A : Type} (o : option A) (d : A) : A :=
  match o with Some a => a | None => d end.

(** The model id after the validation for unauthenticated free-tier callers. *)
Definition validated_model_id (model_manager : ModelManager.t)
           (model_id user_plan : string) (is_authenticated : bool) : string :=
  if String.eqb user_plan "free" && negb is_authenticated then
    let available_models := ModelManager.get_available_models model_manager user_plan false in
    let model_config :=
      Py.next_or_none (fun m => String.eqb (ModelManager.a_id m) model_id) available_models in
    let forbidden :=
      match model_config with
      | None => true
      | Some m => negb (String.eqb (ModelManager.a_provider m) "Groq")
      end in
    if forbidden then
      match Py.next_or_none (fun m => String.eqb (ModelManager.a_provider m) "Groq")
                            available_models with
      | Some groq_model => ModelManager.a_id groq_model
      | None => "mixtral-8x7b"
      end
    else model_id
  else model_id.

(** The error record of the two [except] clauses of [generate]. *)
Definition error_record (e : exn) : sse :=
  match exn_cls e with
  | ValueErrorC => Error (exn_str e) "configuration_error"
  | _ => Error (exn_str e) "api_error"
  end.

(** The records [generate] writes for a run of [stream_response]. *)
Definition relay (r : list ChatHandler.event * ChatHandler.ending) : list sse :=
  (map Content (ChatHandler.yielded (fst r)) ++
   match snd r with
   | ChatHandler.Returned => [Done]
   | ChatHandler.Raised e => [error_record e; Done]
   end)%list.

Section Route.

Variable run : string -> ModelManager.model_config -> Z -> option ChatHandler.attempt.
Variable model_manager : ModelManager.t.

(** The generator [generate]. *)
Definition generate (model_id user_plan : string) (is_authenticated : bool)
           (timeout : result Z) : option (list sse) :=
  match timeout with
  | Raise e => Some [error_record e; Done]
  | Ok timeout =>
      option_map relay
        (ChatHandler.stream_response run model_manager model_id user_plan
                                     is_authenticated timeout)
  end.

(** The answer of the route. *)
Inductive response : Type :=
| BadRequest (error : string)  (* 400 *)
| EventStream (records : list sse).

(** [chat_stream]. *)
Definition chat_stream (data : request) : option response :=
  let model_id := or_default (modelId data) "mixtral-8x7b" in
  let user_plan := or_default (userPlan data) "free" in
  let is_authenticated := or_default (isAuthenticated data) false in
  match message data with
  | None | Some EmptyString => Some (BadRequest "Message is required")
  | Some _ =>
      let model_id := validated_model_id model_manager model_id user_plan is_authenticated in
      option_map EventStream (generate model_id user_plan is_authenticated (timeout data))
  end.

End Route.

(** The test for a rate-limit error that the retry loop of
    [analyze_security] applies to [str(e)]. *)
Definition is_rate_limit_error (error_str : string) : bool :=
  Py.contains "429" error_str
  || Py.contains "rate_limit" (Py.lower error_str)
  || Py.contains "rate limit" (Py.lower error_str).

(** *** The JSON text of a model's answer *)

(** Both analysis routes take the markdown fence off the answer before they
    parse it: [strip], a leading [```json], a leading [```], a trailing
    [```], [strip]. *)
Definition strip_fences (response_text : string) : string :=
  let response_text := Py.strip response_text in
  let response_text :=
    if Py.startswith "```json" response_text then Py.drop 7 response_text
    else response_text in
  let response_text :=
    if Py.startswith "```" response_text then Py.drop 3 response_text
    else response_text in
  let response_text :=
    if Py.endswith "```" response_text then Py.drop_last 3 response_text
    else response_text in
  Py.strip response_text.

(** A printable ASCII character other than the backquote: what a JSON text
    starts and ends with (a brace or a bracket, say). *)
Definition json_edge (c : ascii) : bool :=
  let n := N_of_ascii c in
  ((33 <=? n) && (n <=? 126) && negb (n =? 96))%N.

(** *** The summary of the analysis routes *)

(** A JSON value, as far as the routes look at it. *)
Inductive jvalue : Type :=
| JString (s : string)
| JInt (n : Z)
| JBool (b : bool)
| JNull.

(** One vulnerability of a model's answer: a JSON object. *)
Definition vulnerability : Type := list (string * jvalue).

(** [v.get('severity') == level] *)
Definition has_severity (level : string) (v : vulnerability) : bool :=
  match Py.dict_get v "severity" with
  | Some (JString s) => String.eqb s level
  | _ => false
  end.

Record summary : Type := mkSummary {
  critical : nat;
  high : nat;
  medium : nat;
  low : nat
}.

Definition summarize (vulnerabilities : list vulnerability) : summary :=
  {| critical := List.length (filter (has_severity "critical") vulnerabilities);
     high := List.length (filter (has_severity "high") vulnerabilities);
     medium := List.length (filter (has_severity "medium") vulnerabilities);
     low := List.length (filter (has_severity "low") vulnerabilities) |}.

(** *** The candidates of the documentation routes *)

Definition preferred_models : list string :=
  ["llama-3.3-70b"; "mixtral-8x7b"; "gemini-pro"].

(** The two loops that build [models_to_try] in [analyze_documentation] and
    in [documentation_chat]. *)
Definition documentation_models_to_try (available_model_ids : list string) : list string :=
  let models_to_try :=
    filter (fun model_id => Py.mem model_id available_model_ids) preferred_models in
  fold_left
    (fun models_to_try model_id =>
       if negb (Py.mem model_id models_to_try) then (models_to_try ++ [model_id])%list
       else models_to_try)
    available_model_ids models_to_try.

(** *** documentation_chat *)

(** One record of the event stream of [documentation_chat]. *)
Inductive doc_record : Type :=
| DocContent (chunk : string) (* data: {"content": chunk} *)
| DocError (error : string)   (* data: {"error": ...} *)
| DocDone                     (* data: [DONE] *).

(** How the iteration over one provider call ends. *)
Inductive stream_end : Type :=
| Finished          (* the stream ends *)
| Failed (e : exn)  (* the call or the iteration raises *)
| Blocked           (* the call never returns *).

(** The chunks one candidate yields, and how its stream ends. *)
Fixpoint doc_stream (kind : string) (todo : ChatHandler.provider_stream)
  : list string * stream_end :=
  match todo with
  | [] => ([], Blocked)
  | (_, ChatHandler.Chunk content) :: todo' =>
      let (rest, e) := doc_stream kind todo' in
      (if ChatHandler.puts kind content then content :: rest else rest, e)
  | (_, ChatHandler.Exhausted) :: _ => ([], Finished)
  | (_, ChatHandler.Raises e) :: _ => ([], Failed e)
  end.

Section DocumentationChat.

Variable model_manager : ModelManager.t.

(** What the provider does when called for a model. *)
Variable stream_of : string -> ChatHandler.provider_stream.

(** The loop of the generator [generate] of [documentation_chat]; [None]
    when it never ends. *)
Fixpoint doc_generate (models_to_try : list string) (last_error : option string)
  : option (list doc_record) :=
  match models_to_try with
  | [] => Some [DocError (ChatHandler.all_failed_msg last_error); DocDone]
  | model_id :: rest =>
      match ModelManager.get_model_config model_manager model_id with
      | None => doc_generate rest last_error
      | Some model_config =>
          match ModelManager.get_client model_manager model_id with
          | Raise e => doc_generate rest (Some (exn_str e))
          | Ok None => doc_generate rest last_error
          | Ok (Some client) =>
              if ChatHandler.known_client (ModelManager.client model_config) then
                let (chunks, e) :=
                  doc_stream (ModelManager.client model_config) (stream_of model_id) in
                match e with
                | Finished => Some (map DocContent chunks ++ [DocDone])%list
                | Failed err =>
                    option_map (app (map DocContent chunks))
                               (doc_generate rest (Some (exn_str err)))
                | Blocked => None
                end
              else doc_generate rest last_error
          end
      end
  end.

(** The answer of [documentation_chat]. *)
Inductive doc_response : Type :=
| DocBadRequest (error : string)  (* 400 *)
| DocStream (records : list doc_record).

Definition documentation_chat (message : option string) (user_plan : option string)
           (is_authenticated : option bool) : option doc_response :=
  let user_plan := or_default user_plan "free" in
  let is_authenticated := or_default is_authenticated true in
  match or_default message "" with
  | EmptyString => Some (DocBadRequest "Message is required")
  | String _ _ =>
      let models_to_try :=
        documentation_models_to_try
          (map ModelManager.a_id
               (filter ModelManager.a_available
                       (ModelManager.get_available_models model_manager user_plan
                                                          is_authenticated))) in
      match models_to_try with
      | [] => Some (DocStream [DocError "No suitable AI model available"; DocDone])
      | _ :: _ => option_map DocStream (doc_generate models_to_try None)
      end
  end.

End DocumentationChat.

(** *** The retry loop of analyze_security *)

(** What one call of the model gives, for the retry loop. *)
Inductive call_result : Type :=
| Parsed (file_vulns : list vulnerability) (* the answer parses *)
| NoJson                                   (* no JSON can be read from the answer *)
| CallRaises (error_str : string)          (* the call, or reading the answer, raises *).

(** What the retry loop does, in order. *)
Inductive retry_event : Type :=
| Called (attempt : nat) (* a request is sent to the provider *)
| Sleep (ms : Z)         (* time.sleep *).

Definition max_retries : nat := 3.

Section Retry.

(** The calls of one model for one file, by attempt number. *)
Variable call : nat -> call_result.

(** The wait that [re.search] reads from the message (the first number
    followed by an "s"), in milliseconds, if it finds one. *)
Variable wait_time_match : string -> option Z.

(** The loop [for attempt in range(max_retries)] from attempt [attempt] on,
    [left] attempts to go, with the current [retry_delay] in milliseconds:
    the events, and the vulnerabilities when a call succeeded. *)
Fixpoint retry_loop (left attempt : nat) (retry_delay : Z)
  : list retry_event * option (list vulnerability) :=
  match left with
  | O => ([], None)
  | S left' =>
      let again (slept : list retry_event) :=
        if (attempt <? max_retries - 1)%nat then
          let (evs, r) := retry_loop left' (S attempt) (retry_delay * 2) in
          ((Called attempt :: slept) ++ evs, r)%list
        else (Called attempt :: slept, None) in
      match call attempt with
      | Parsed file_vulns => ([Called attempt], Some file_vulns)
      | NoJson =>
          if (attempt <? max_retries - 1)%nat then again [Sleep retry_delay] else again []
      | CallRaises error_str =>
          if is_rate_limit_error error_str then
            let wait_time :=
              match wait_time_match error_str with
              | Some w => w + 2000
              | None => retry_delay
              end in
            again [Sleep wait_time]
          else
            if (attempt <? max_retries - 1)%nat then again [Sleep retry_delay] else again []
      end
  end.

(** The retry loop of one model for one file. *)
Definition retry : list retry_event * option (list vulnerability) :=
  retry_loop max_retries 0 5000.

End Retry.

(** A candidate whose provider [documentation_chat] calls: it has a
    configuration, a client, and one of the four client types. *)
Definition doc_candidate (model_manager : ModelManager.t) (m : string) : bool :=
  match ModelManager.get_model_config model_manager m,
        ModelManager.get_client model_manager m with
  | Some model_config, Ok (Some _) =>
      ChatHandler.known_client (ModelManager.client model_config)
  | _, _ => false
  end.

(** The chunks of a candidate and the end of its stream. *)
Definition doc_run (model_manager : ModelManager.t)
           (stream_of : string -> ChatHandler.provider_stream) (m : string)
  : list string * stream_end :=
  match ModelManager.get_model_config model_manager m with
  | Some model_config => doc_stream (ModelManager.client model_config) (stream_of m)
  | None => ([], Blocked)
  end.

Definition doc_finishes (model_manager : ModelManager.t)
           (stream_of : string -> ChatHandler.provider_stream) (m : string) : bool :=
  match snd (doc_run model_manager stream_of m) with
  | Finished => true
  | _ => false
  end.

Definition calls (evs : list retry_event) : nat :=
  List.length (filter (fun ev => match ev with Called _ => true | Sleep _ => false end) evs).

Fixpoint slept (evs : list retry_event) : Z :=
  match evs with
  | [] => 0
  | Sleep ms :: evs' => ms + slept evs'
  | Called _ :: evs' => slept evs'
  end.

End App.

(** * Properties *)

(** ** Strings and dicts *)

Lemma mem_In (x : string) (l : list string) : Py.mem x l = true <-> In x l.
Proof.
  unfold Py.mem. rewrite existsb_exists. split.
  - intros [y [Hy Heq]]. apply String.eqb_eq in Heq. now subst.
  - intros H. exists x. split; [assumption | apply String.eqb_refl].
Qed.

Lemma dict_get_Some_In {V : Type} (d : list (string * V)) (k : string) (v : V) :
  Py.dict_get d k = Some v -> In (k, v) d.
Proof.
  induction d as [|[k' v'] d IH]; simpl; [discriminate|].
  destruct (String.eqb_spec k k') as [->|Hne].
  - intros [= ->]. now left.
  - intros H. right. now apply IH.
Qed.

Lemma dict_get_key_In {V : Type} (d : list (string * V)) (k : string) :
  In k (map fst d) -> exists v, Py.dict_get d k = Some v.
Proof.
  induction d as [|[k' v'] d IH]; simpl; [contradiction|].
  intros H. destruct (String.eqb_spec k k') as [->|Hne].
  - now exists v'.
  - destruct H as [H|H]; [congruence | now apply IH].
Qed.

(** ** The stable sort *)

Section Sort.

Context {A : Type}.

Lemma key_leb_le (a b : Py.key) : Py.key_leb a b = true -> Py.key_le a b.
Proof. unfold Py.key_leb, Py.key_le. lia. Qed.

Lemma key_leb_total (a b : Py.key) : Py.key_leb a b = false -> Py.key_le b a.
Proof. unfold Py.key_leb, Py.key_le. lia. Qed.

Lemma key_le_trans (a b c : Py.key) : Py.key_le a b -> Py.key_le b c -> Py.key_le a c.
Proof. unfold Py.key_le. lia. Qed.

Lemma insert_keyed_perm (x : Py.key * A) (l : list (Py.key * A)) :
  Permutation (Py.insert_keyed x l) (x :: l).
Proof.
  induction l as [|y l IH]; simpl; [reflexivity|].
  destruct (Py.key_leb (fst x) (fst y)); [reflexivity|].
  rewrite IH. apply perm_swap.
Qed.

Lemma sort_keyed_perm (l : list (Py.key * A)) : Permutation (Py.sort_keyed l) l.
Proof.
  induction l as [|x l IH]; simpl; [reflexivity|].
  rewrite insert_keyed_perm. now constructor.
Qed.

Lemma insert_keyed_sorted (x : Py.key * A) (l : list (Py.key * A)) :
  StronglySorted Py.keyed_le l -> StronglySorted Py.keyed_le (Py.insert_keyed x l).
Proof.
  induction 1 as [|y l Hs IH Hall]; simpl.
  - repeat constructor.
  - destruct (Py.key_leb (fst x) (fst y)) eqn:Hxy.
    + apply key_leb_le in Hxy. constructor; [now constructor|].
      constructor; [exact Hxy|].
      eapply Forall_impl; [|exact Hall].
      intros z Hz. eapply key_le_trans; eassumption.
    + apply key_leb_total in Hxy. constructor; [exact IH|].
      eapply Permutation_Forall; [symmetry; apply insert_keyed_perm|].
      now constructor.
Qed.

Lemma sort_keyed_sorted (l : list (Py.key * A)) : StronglySorted Py.keyed_le (Py.sort_keyed l).
Proof.
  induction l as [|x l IH]; simpl; [constructor | now apply insert_keyed_sorted].
Qed.

Variable f : A -> result Py.key.

Lemma decorate_spec (l : list A) (kl : list (Py.key * A)) :
  Py.decorate f l = Ok kl ->
  map snd kl = l /\ Forall (fun kx => f (snd kx) = Ok (fst kx)) kl.
Proof.
  revert kl. induction l as [|x l IH]; simpl; intros kl.
  - intros [= <-]. split; constructor.
  - destruct (f x) as [k|e] eqn:Hfx; [|discriminate].
    destruct (Py.decorate f l) as [kl'|e]; [|discriminate].
    intros [= <-]. destruct (IH kl' eq_refl) as [Hm Hf].
    split; simpl; [now rewrite Hm | now constructor].
Qed.

Lemma decorate_total (l : list A) :
  (forall x, In x l -> exists k, f x = Ok k) -> exists kl, Py.decorate f l = Ok kl.
Proof.
  induction l as [|x l IH]; simpl; intros H; [now eexists|].
  destruct (H x (or_introl eq_refl)) as [k ->].
  destruct IH as [kl ->]; [intros; apply H; now right|]. now eexists.
Qed.

Lemma StronglySorted_map_snd (kl : list (Py.key * A)) :
  Forall (fun kx => f (snd kx) = Ok (fst kx)) kl ->
  StronglySorted Py.keyed_le kl ->
  StronglySorted (Py.sorted_by_key f) (map snd kl).
Proof.
  intros Hf Hs. induction Hs as [|x l Hs IH Hall]; simpl; [constructor|].
  inversion Hf as [|? ? Hx Hl]; subst.
  constructor; [now apply IH|].
  rewrite Forall_map. rewrite Forall_forall in *.
  intros y Hy. exists (fst x), (fst y). repeat split; auto.
  now apply Hall.
Qed.

Lemma sort_by_key_spec (l l' : list A) :
  Py.sort_by_key f l = Ok l' ->
  Permutation l' l /\ StronglySorted (Py.sorted_by_key f) l'.
Proof.
  unfold Py.sort_by_key. destruct (Py.decorate f l) as [kl|e] eqn:Hd; [|discriminate].
  intros [= <-]. destruct (decorate_spec _ _ Hd) as [Hm Hf]. split.
  - rewrite <- Hm. apply Permutation_map, sort_keyed_perm.
  - apply StronglySorted_map_snd; [|apply sort_keyed_sorted].
    eapply Permutation_Forall; [symmetry; apply sort_keyed_perm | exact Hf].
Qed.

Lemma sort_by_key_total (l : list A) :
  (forall x, In x l -> exists k, f x = Ok k) -> exists l', Py.sort_by_key f l = Ok l'.
Proof.
  intros H. unfold Py.sort_by_key.
  destruct (decorate_total l H) as [kl ->]. now eexists.
Qed.

End Sort.

(** ** The model registry and the candidate selector *)

Section Registry.

Import ModelManager.

Variable self : ModelManager.t.
Variables (user_plan : string) (is_authenticated : bool).

Lemma get_available_models_In (a : available_model) :
  In a (get_available_models self user_plan is_authenticated) <->
  exists entry,
    In entry (models self) /\
    Py.mem (category (snd entry))
           (Py.dict_get_default (plan_access self) user_plan ["basic"]) = true /\
    provider_excluded self user_plan is_authenticated (snd entry) = false /\
    a = mkAvailable (id (snd entry)) (name (snd entry)) (provider (snd entry))
                    (category (snd entry)) (max_tokens (snd entry))
                    (client_available self (snd entry)).
Proof.
  unfold get_available_models. rewrite in_flat_map. split.
  - intros [entry [Hin Ha]]. exists entry. split; [exact Hin|].
    destruct (Py.mem _ _); [|contradiction].
    destruct (provider_excluded _ _ _ _); [contradiction|].
    destruct Ha as [<-|[]]. auto.
  - intros [entry [Hin [Hc [Hp ->]]]]. exists entry. split; [exact Hin|].
    rewrite Hc, Hp. now left.
Qed.

Lemma available_model_ids_In (m : string) :
  In m (available_model_ids self user_plan is_authenticated) <->
  exists a, In a (get_available_models self user_plan is_authenticated) /\
            a_available a = true /\ a_id a = m.
Proof.
  unfold available_model_ids. rewrite in_map_iff. split.
  - intros [a [Hid Hin]]. apply filter_In in Hin. exists a. tauto.
  - intros [a [Hin [Hav Hid]]]. exists a. rewrite filter_In. tauto.
Qed.

Lemma available_model_ids_registered (m : string) :
  In m (available_model_ids self user_plan is_authenticated) -> In m (registered_ids self).
Proof.
  rewrite available_model_ids_In. intros [a [Hin [_ <-]]].
  apply get_available_models_In in Hin. destruct Hin as [entry [Hin [_ [_ ->]]]].
  unfold registered_ids. simpl. now apply (in_map (fun e => id (snd e))).
Qed.

Lemma available_model_ids_NoDup :
  NoDup (registered_ids self) ->
  NoDup (available_model_ids self user_plan is_authenticated).
Proof.
  unfold available_model_ids, get_available_models, registered_ids.
  induction (models self) as [|entry l IH]; simpl; [constructor|].
  intros Hnd. inversion Hnd as [|? ? Hnotin Hnd']; subst.
  specialize (IH Hnd').
  destruct (Py.mem _ _); [|exact IH].
  destruct (provider_excluded _ _ _ _); [exact IH|].
  simpl. destruct (client_available self (snd entry)); [|exact IH].
  simpl. constructor; [|exact IH].
  intros Hin. apply Hnotin.
  apply in_map_iff in Hin. destruct Hin as [a [Hid Hin]].
  apply filter_In in Hin. destruct Hin as [Hin _].
  apply in_flat_map in Hin. destruct Hin as [e [He Ha]].
  destruct (Py.mem _ _); [|contradiction].
  destruct (provider_excluded _ _ _ _); [contradiction|].
  destruct Ha as [<-|[]]. simpl in Hid. rewrite <- Hid.
  now apply (in_map (fun e => id (snd e))).
Qed.

Lemma registered_has_config (m : string) :
  keyed_by_id self -> In m (registered_ids self) -> exists cfg, get_model_config self m = Some cfg.
Proof.
  unfold keyed_by_id, registered_ids, get_model_config. intros Hk Hin.
  apply dict_get_key_In.
  apply in_map_iff in Hin. destruct Hin as [entry [<- Hin]].
  rewrite Forall_forall in Hk. rewrite <- (Hk _ Hin). now apply in_map.
Qed.

Lemma sort_key_ranked (a b : string) :
  Py.sorted_by_key (sort_key self) a b -> ranked_before self a b.
Proof.
  intros [ka [kb [Ha [Hb Hle]]]]. unfold sort_key, get_priority in Ha, Hb.
  destruct (get_model_config self a) as [ca|] eqn:Hca; [|discriminate].
  destruct (get_model_config self b) as [cb|] eqn:Hcb; [|discriminate].
  injection Ha as <-. injection Hb as <-.
  exists ca, cb. split; [exact Hca | split; [exact Hcb | exact Hle]].
Qed.

Lemma StronglySorted_weaken {A : Type} (R S : A -> A -> Prop) (l : list A) :
  (forall a b, R a b -> S a b) -> StronglySorted R l -> StronglySorted S l.
Proof.
  intros HRS. induction 1 as [|x l Hs IH Hall]; constructor; [exact IH|].
  eapply Forall_impl; [|exact Hall]. intros; now apply HRS.
Qed.

(** [get_fallback_models] on a registry keyed by distinct ids: it returns,
    and its list is the available ids other than the primary one, each
    once, in the order of the ranks. *)
Lemma get_fallback_models_spec (primary_model_id : string) :
  keyed_by_id self -> NoDup (registered_ids self) ->
  exists fallback,
    get_fallback_models self primary_model_id user_plan is_authenticated = Ok fallback /\
    NoDup fallback /\
    (forall m, In m fallback <->
               m <> primary_model_id /\
               In m (available_model_ids self user_plan is_authenticated)) /\
    StronglySorted (ranked_before self) fallback.
Proof.
  intros Hk Hnd. unfold get_fallback_models.
  set (ids := filter (fun m => negb (String.eqb m primary_model_id))
                     (available_model_ids self user_plan is_authenticated)).
  assert (Hids : forall m, In m ids <->
             m <> primary_model_id /\
             In m (available_model_ids self user_plan is_authenticated)).
  { intros m. unfold ids. rewrite filter_In, negb_true_iff.
    destruct (String.eqb_spec m primary_model_id); intuition congruence. }
  destruct (sort_by_key_total (sort_key self) ids) as [fallback Hsort].
  { intros m Hm. apply Hids in Hm. destruct Hm as [_ Hm].
    apply available_model_ids_registered in Hm.
    destruct (registered_has_config m Hk Hm) as [cfg Hcfg].
    unfold sort_key. rewrite Hcfg. now eexists. }
  exists fallback. split; [exact Hsort|].
  destruct (sort_by_key_spec _ _ _ Hsort) as [Hperm Hsorted].
  split; [|split].
  - eapply Permutation_NoDup; [symmetry; exact Hperm|].
    apply NoDup_filter, available_model_ids_NoDup, Hnd.
  - intros m. rewrite <- Hids. split; apply Permutation_in;
      [exact Hperm | symmetry; exact Hperm].
  - eapply StronglySorted_weaken; [|exact Hsorted]. apply sort_key_ranked.
Qed.

End Registry.

Lemma dict_get_NoDup {V : Type} (d : list (string * V)) (k : string) (v : V) :
  NoDup (map fst d) -> In (k, v) d -> Py.dict_get d k = Some v.
Proof.
  induction d as [|[k' v'] d IH]; simpl; [contradiction|].
  intros Hnd [Heq|Hin].
  - injection Heq as -> ->. now rewrite String.eqb_refl.
  - inversion Hnd as [|? ? Hnotin Hnd']; subst.
    destruct (String.eqb_spec k k') as [->|_].
    + exfalso. apply Hnotin. now apply (in_map fst _ (k', v)).
    + now apply IH.
Qed.

Lemma keyed_registered_ids (self : ModelManager.t) :
  ModelManager.keyed_by_id self ->
  map fst (ModelManager.models self) = ModelManager.registered_ids self.
Proof.
  unfold ModelManager.keyed_by_id, ModelManager.registered_ids.
  induction 1 as [|e l He _ IH]; simpl; [reflexivity | now rewrite He, IH].
Qed.

Lemma get_model_config_entry (self : ModelManager.t) (entry : string * ModelManager.model_config) :
  ModelManager.keyed_by_id self -> NoDup (ModelManager.registered_ids self) ->
  In entry (ModelManager.models self) ->
  ModelManager.get_model_config self (ModelManager.id (snd entry)) = Some (snd entry).
Proof.
  intros Hk Hnd Hin. unfold ModelManager.get_model_config.
  apply dict_get_NoDup.
  - now rewrite keyed_registered_ids.
  - unfold ModelManager.keyed_by_id in Hk. rewrite Forall_forall in Hk.
    rewrite <- (Hk _ Hin). now destruct entry.
Qed.

(** *** The registry of [__init__] *)

Section Init.

Import ModelManager.

Variable env : ModelManager.environment.

Lemma init_keyed_by_id : keyed_by_id (init env).
Proof. unfold keyed_by_id. simpl. repeat constructor. Qed.

Lemma init_NoDup : NoDup (registered_ids (init env)).
Proof.
  unfold registered_ids. simpl.
  repeat (constructor;
          [ simpl; intros H;
            repeat (destruct H as [H|H]; [discriminate H|]); exact H | ]).
  constructor.
Qed.

Lemma init_openai_client : openai_client (init env) = None.
Proof. simpl. unfold init_openai. now destruct (truthy _). Qed.

Lemma init_anthropic_client : anthropic_client (init env) = None.
Proof. simpl. unfold init_anthropic. now destruct (truthy _). Qed.

(** In the registry the two providers without integration are exactly the
    entries of the two client types without client. *)
Lemma init_provider_client (entry : string * model_config) :
  In entry (models (init env)) ->
  provider (snd entry) = "OpenAI" \/ provider (snd entry) = "Anthropic" ->
  client (snd entry) = "openai" \/ client (snd entry) = "anthropic".
Proof.
  simpl. intros Hin Hp.
  repeat (destruct Hin as [<-|Hin];
          [ simpl in *; first [ now left | now right | destruct Hp; discriminate ] | ]).
  contradiction.
Qed.

Lemma client_available_no_integration (self : t) (cfg : model_config) :
  client cfg = "openai" \/ client cfg = "anthropic" -> client_available self cfg = false.
Proof. unfold client_available. intros [-> | ->]; reflexivity. Qed.

End Init.

(** *** The candidate list *)

(** C7.  For every environment of the manager, requested model id, plan
    tier and authentication state, the candidate list of [stream_response]
    is the requested (or substituted) model id followed by the fallback
    list; no id occurs twice; the fallback list holds exactly the ids, other
    than the requested one, that [get_available_models] allows for the plan
    and reports available; and it is ordered by provider rank (Groq before
    Google before OpenAI and Anthropic), then by capability tier
    (basic < standard < advanced < enterprise). *)
Theorem C7_candidate_list (env : ModelManager.environment) (model_id user_plan : string)
        (is_authenticated : bool) :
  exists fallback,
    ChatHandler.models_to_try (ModelManager.init env) model_id user_plan is_authenticated
      = Ok (model_id :: fallback) /\
    NoDup (model_id :: fallback) /\
    (forall m, In m fallback <->
       m <> model_id /\
       exists a, In a (ModelManager.get_available_models
                         (ModelManager.init env) user_plan is_authenticated) /\
                 ModelManager.a_available a = true /\ ModelManager.a_id a = m) /\
    StronglySorted (ModelManager.ranked_before (ModelManager.init env)) fallback /\
    ModelManager.provider_rank "groq" < ModelManager.provider_rank "google"
      < ModelManager.provider_rank "openai" /\
    ModelManager.provider_rank "openai" = ModelManager.provider_rank "anthropic" /\
    ModelManager.tier_rank "basic" < ModelManager.tier_rank "standard"
      < ModelManager.tier_rank "advanced" /\
    ModelManager.tier_rank "advanced" < ModelManager.tier_rank "enterprise".
Proof.
  destruct (get_fallback_models_spec (ModelManager.init env) user_plan is_authenticated
              model_id (init_keyed_by_id env) (init_NoDup env))
    as [fallback [Hfb [Hnd [Hin Hsorted]]]].
  exists fallback. split; [|split; [|split; [|split]]].
  - unfold ChatHandler.models_to_try. now rewrite Hfb.
  - constructor; [|exact Hnd]. intros H. apply Hin in H. now destruct H.
  - intros m. rewrite Hin, available_model_ids_In. reflexivity.
  - exact Hsorted.
  - repeat split; reflexivity.
Qed.

(** C8.  For an unauthenticated free-tier caller whose requested model is
    not a Groq model of the list [get_available_models] allows, the route
    replaces the requested id by the id of the first Groq model of that
    list, and by the hard-coded ["mixtral-8x7b"] when the list holds no Groq
    model; the replacement is the model id [stream_response] is called
    with, hence the first candidate.  With the registry of [__init__] the
    replacement is ["mixtral-8x7b"] in every environment. *)
Theorem C8_free_unauthenticated_substitution
        (run : string -> ModelManager.model_config -> Z -> option ChatHandler.attempt)
        (self : ModelManager.t) (data : App.request) (text : string) :
  App.message data = Some text -> text <> "" ->
  App.or_default (App.userPlan data) "free" = "free" ->
  App.or_default (App.isAuthenticated data) false = false ->
  (forall a, In a (ModelManager.get_available_models self "free" false) ->
             ModelManager.a_id a = App.or_default (App.modelId data) "mixtral-8x7b" ->
             ModelManager.a_provider a <> "Groq") ->
  exists chosen,
    App.validated_model_id self (App.or_default (App.modelId data) "mixtral-8x7b") "free" false
      = chosen /\
    ((exists before g after,
        ModelManager.get_available_models self "free" false = (before ++ g :: after)%list /\
        ModelManager.a_provider g = "Groq" /\
        Forall (fun b => ModelManager.a_provider b <> "Groq") before /\
        chosen = ModelManager.a_id g)
     \/
     (Forall (fun a => ModelManager.a_provider a <> "Groq")
             (ModelManager.get_available_models self "free" false) /\
      chosen = "mixtral-8x7b")) /\
    App.chat_stream run self data
      = option_map App.EventStream
          (App.generate run self chosen "free" false (App.timeout data)) /\
    (forall fallback,
        ModelManager.get_fallback_models self chosen "free" false = Ok fallback ->
        ChatHandler.models_to_try self chosen "free" false = Ok (chosen :: fallback)) /\
    (forall env, self = ModelManager.init env -> chosen = "mixtral-8x7b").
Proof.
  intros Hmsg Htext Hplan Hauth Hnot.
  set (model_id := App.or_default (App.modelId data) "mixtral-8x7b") in *.
  set (available := ModelManager.get_available_models self "free" false) in *.
  assert (Hforbidden :
            match Py.next_or_none (fun m => String.eqb (ModelManager.a_id m) model_id) available with
            | None => true
            | Some m => negb (String.eqb (ModelManager.a_provider m) "Groq")
            end = true).
  { unfold Py.next_or_none.
    destruct (find _ available) as [m|] eqn:Hfind; [|reflexivity].
    apply find_some in Hfind. destruct Hfind as [Hin Hid].
    apply String.eqb_eq in Hid. apply negb_true_iff.
    destruct (String.eqb_spec (ModelManager.a_provider m) "Groq") as [Hp|]; [|reflexivity].
    exfalso. exact (Hnot m Hin Hid Hp). }
  assert (Hfirst : forall l : list ModelManager.available_model,
            match find (fun m => String.eqb (ModelManager.a_provider m) "Groq") l with
            | Some g => exists before after,
                          l = (before ++ g :: after)%list /\
                          ModelManager.a_provider g = "Groq" /\
                          Forall (fun b => ModelManager.a_provider b <> "Groq") before
            | None => Forall (fun a => ModelManager.a_provider a <> "Groq") l
            end).
  { induction l as [|x l IH]; simpl; [constructor|].
    destruct (String.eqb_spec (ModelManager.a_provider x) "Groq") as [Hx|Hx].
    - exists [], l. repeat split; [exact Hx | constructor].
    - destruct (find _ l) as [g|].
      + destruct IH as [before [after [-> [Hg Hb]]]].
        exists (x :: before), after. repeat split; [exact Hg | now constructor].
      + now constructor. }
  eexists. split; [reflexivity|].
  unfold App.validated_model_id. simpl. fold available. rewrite Hforbidden.
  unfold Py.next_or_none. specialize (Hfirst available).
  split; [|split; [|split]].
  - destruct (find _ available) as [g|].
    + left. destruct Hfirst as [before [after [Heq [Hg Hb]]]].
      exists before, g, after. auto.
    + right. auto.
  - unfold App.chat_stream. rewrite Hmsg, Hplan, Hauth.
    destruct text as [|c text']; [congruence|].
    unfold App.validated_model_id. simpl. fold model_id. fold available.
    rewrite Hforbidden. reflexivity.
  - intros fallback Hfb. unfold ChatHandler.models_to_try. now rewrite Hfb.
  - intros env ->. reflexivity.
Qed.

(** With the registry of the program, the replacement for a request of
    [gpt-4o] without plan or authentication fields is [mixtral-8x7b]. *)
Lemma C8_free_unauthenticated_substitution_witness :
  exists chosen,
    App.validated_model_id
      (ModelManager.init (ModelManager.mkEnv None None (Some "gsk_live") None true true))
      "gpt-4o" "free" false = chosen /\
    chosen = "mixtral-8x7b".
Proof.
  destruct (C8_free_unauthenticated_substitution
              (fun _ _ _ => None)
              (ModelManager.init (ModelManager.mkEnv None None (Some "gsk_live") None true true))
              (App.mkRequest (Some "hello") (Some "gpt-4o") None None (Ok 30))
              "hello")
    as [chosen [Hchosen _]].
  - reflexivity.
  - discriminate.
  - reflexivity.
  - reflexivity.
  - simpl. intros a [<-|[]]. simpl. discriminate.
  - exists chosen. split; [exact Hchosen|].
    rewrite <- Hchosen. reflexivity.
Defined.

(** C10.  Whatever API keys the environment holds, the manager has no
    OpenAI and no Anthropic client; [get_available_models] reports every
    OpenAI and Anthropic model with [available = false]; and every id of a
    fallback list belongs to a model of another provider. *)
Theorem C10_no_openai_anthropic_candidate (env : ModelManager.environment)
        (user_plan : string) (is_authenticated : bool) :
  ModelManager.openai_client (ModelManager.init env) = None /\
  ModelManager.anthropic_client (ModelManager.init env) = None /\
  (forall a,
      In a (ModelManager.get_available_models (ModelManager.init env) user_plan is_authenticated) ->
      ModelManager.a_provider a = "OpenAI" \/ ModelManager.a_provider a = "Anthropic" ->
      ModelManager.a_available a = false) /\
  (forall primary_model_id,
      exists fallback,
        ModelManager.get_fallback_models (ModelManager.init env) primary_model_id
                                         user_plan is_authenticated = Ok fallback /\
        forall m, In m fallback ->
          exists cfg,
            ModelManager.get_model_config (ModelManager.init env) m = Some cfg /\
            ModelManager.provider cfg <> "OpenAI" /\
            ModelManager.provider cfg <> "Anthropic").
Proof.
  split; [apply init_openai_client|]. split; [apply init_anthropic_client|].
  assert (Hav : forall a,
      In a (ModelManager.get_available_models (ModelManager.init env) user_plan is_authenticated) ->
      ModelManager.a_provider a = "OpenAI" \/ ModelManager.a_provider a = "Anthropic" ->
      ModelManager.a_available a = false).
  { intros a Hin Hp. apply get_available_models_In in Hin.
    destruct Hin as [entry [Hin [_ [_ ->]]]]. simpl in *.
    apply client_available_no_integration. now apply (init_provider_client env). }
  split; [exact Hav|].
  intros primary_model_id.
  destruct (get_fallback_models_spec (ModelManager.init env) user_plan is_authenticated
              primary_model_id (init_keyed_by_id env) (init_NoDup env))
    as [fallback [Hfb [_ [Hin _]]]].
  exists fallback. split; [exact Hfb|].
  intros m Hm. apply Hin in Hm. destruct Hm as [_ Hm].
  apply available_model_ids_In in Hm. destruct Hm as [a [Ha [Havail Hid]]].
  pose proof (Hav a Ha) as Hno.
  apply get_available_models_In in Ha. destruct Ha as [entry [He [_ [_ ->]]]].
  simpl in *. subst m. exists (snd entry).
  split; [apply get_model_config_entry;
          [apply init_keyed_by_id | apply init_NoDup | exact He]|].
  split; intros Hp; rewrite Hno in Havail; auto; discriminate.
Qed.

(** ** The liveness monitor *)

(** Boolean comparisons of the loop, as inequalities for [lia]. *)
Ltac zbool :=
  repeat match goal with
         | H : (_ >? _) = true |- _ => apply Z.gtb_lt in H
         | H : (_ >? _) = false |- _ => rewrite Z.gtb_ltb in H; apply Z.ltb_ge in H
         | H : (_ >=? _) = true |- _ => apply Z.geb_le in H
         | H : (_ >=? _) = false |- _ => rewrite Z.geb_leb in H; apply Z.leb_gt in H
         | H : (_ <=? _) = true |- _ => apply Z.leb_le in H
         | H : (_ <=? _) = false |- _ => apply Z.leb_gt in H
         end.

Section Monitor.

Import ChatHandler.

Variable kind : string.

Lemma monitor_unfold (fuel : nat) (timeout start_time now : Z) (todo : provider_stream)
      (s : shared) (has_received_data : bool) (last_chunk_time : Z) (consumer : list N) :
  monitor (S fuel) kind timeout start_time now todo s has_received_data last_chunk_time consumer
  = let (s, todo) := run_worker kind now todo s in
    if (now - start_time >=? 1000 * timeout) && negb has_received_data then
      Some (mkAttempt [] ExitTimeout now (set_stop s))
    else if has_received_data && (now - last_chunk_time >=? 10000) && completion_event s then
      Some (mkAttempt [] ExitQuiet now s)
    else
      match error_queue s with
      | error :: errors =>
          Some (mkAttempt [] (ExitError error) now
                          (set_stop (with_queues (result_queue s) errors s)))
      | [] =>
          if completion_event s && is_nil (result_queue s) then
            Some (mkAttempt [] ExitDrained now s)
          else
            match get kind now todo s with
            | (Some chunk, now', s', todo') =>
                option_map (yield_first chunk)
                  (monitor fuel kind timeout start_time (now' + Z.of_N (hd 0%N consumer))
                           todo' s' true now' (tl consumer))
            | (None, now', s', todo') =>
                if negb (thread_alive s') && is_nil (result_queue s') && completion_event s'
                then Some (mkAttempt [] ExitDead now' s')
                else monitor fuel kind timeout start_time now' todo' s'
                             has_received_data last_chunk_time consumer
            end
      end.
Proof. reflexivity. Qed.

(** *** The timeout branch needs an attempt without data *)



(** *** The worker, left alone *)

Lemma run_worker_compose (limit1 limit2 : Z) (todo : provider_stream) :
  forall s, limit1 <= limit2 ->
    run_worker kind limit2 (snd (run_worker kind limit1 todo s))
               (fst (run_worker kind limit1 todo s))
    = run_worker kind limit2 todo s.
Proof.
  induction todo as [|[t it] todo IH]; intros s Hle; simpl; [reflexivity|].
  destruct (t <=? limit1) eqn:H1; [|reflexivity].
  assert (H2 : (t <=? limit2) = true) by (zbool; apply Z.leb_le; lia).
  rewrite H2. destruct (thread_alive (worker_step kind it s)); [now apply IH | reflexivity].
Qed.

(** While the completion event is not set, the worker has done nothing
    but handle chunks. *)
Lemma run_worker_incomplete (limit : Z) (todo : provider_stream) :
  forall s, completion_event (fst (run_worker kind limit todo s)) = false ->
    completion_event s = false /\
    error_queue (fst (run_worker kind limit todo s)) = error_queue s /\
    thread_alive (fst (run_worker kind limit todo s)) = thread_alive s.
Proof.
  induction todo as [|[t it] todo IH]; intros s; simpl; [auto|].
  destruct (t <=? limit); [|simpl; auto].
  destruct it as [content| |e]; simpl.
  - destruct (stop_event s); [simpl; discriminate|].
    destruct (puts kind content); simpl.
    + destruct (thread_alive s) eqn:Halive; [|simpl; auto].
      intros H. destruct (IH _ H) as [Hc [He Ha]]. simpl in *.
      repeat split; congruence.
    + destruct (thread_alive s) eqn:Halive; [|simpl; auto].
      intros H. destruct (IH _ H) as [Hc [He Ha]]. repeat split; congruence.
  - discriminate.
  - discriminate.
Qed.

(** *** A worker that puts nothing *)

Lemma run_worker_silent (limit : Z) (todo : provider_stream) :
  forall s, stop_event s = false -> enqueued_by kind todo = [] ->
    result_queue (fst (run_worker kind limit todo s)) = result_queue s /\
    stop_event (fst (run_worker kind limit todo s)) = false /\
    enqueued_by kind (snd (run_worker kind limit todo s)) = [].
Proof.
  induction todo as [|[t it] todo IH]; intros s Hstop Hsilent; simpl.
  - auto.
  - destruct (t <=? limit); [|simpl; auto].
    destruct it as [content| |e]; simpl in *.
    + rewrite Hstop. destruct (puts kind content); [discriminate|].
      destruct (thread_alive s); [now apply IH | simpl; auto].
    + auto.
    + auto.
Qed.

(** Blocked on a queue that stays empty, the monitor sleeps through the
    whole wait. *)
Lemma wait_put_silent (limit : Z) (todo : provider_stream) :
  forall cur s, stop_event s = false -> result_queue s = [] -> enqueued_by kind todo = [] ->
    wait_put kind limit cur todo s
    = (None, fst (run_worker kind limit todo s), snd (run_worker kind limit todo s)).
Proof.
  induction todo as [|[t it] todo IH]; intros cur s Hstop Hq Hsilent; simpl.
  - reflexivity.
  - destruct (t <=? limit); [|reflexivity].
    destruct it as [content| |e]; simpl in *.
    + rewrite Hstop. destruct (puts kind content); [discriminate|].
      rewrite Hq. destruct (thread_alive s); [now apply IH | reflexivity].
    + now rewrite Hq.
    + now rewrite Hq.
Qed.

(** An attempt without data ends at the first look at the clock from the
    deadline on, if not before: [n] polls of half a second lead from [now]
    to that look, and until then the deadline test is false. *)
Lemma monitor_silent (timeout : Z) (n : nat) :
  forall now todo s last_chunk_time consumer,
    stop_event s = false -> result_queue s = [] -> enqueued_by kind todo = [] ->
    1000 * timeout <= now + 500 * Z.of_nat n ->
    (n <> 0%nat -> now + 500 * Z.of_nat n = 1000 * timeout) ->
    exists a,
      monitor (S n) kind timeout 0 now todo s false last_chunk_time consumer = Some a /\
      yields a = [] /\
      end_time a <= now + 500 * Z.of_nat n /\
      (exit a = ExitTimeout ->
       end_time a = now + 500 * Z.of_nat n /\ stop_event (final a) = true) /\
      (completion_event (fst (run_worker kind (now + 500 * Z.of_nat n) todo s)) = false ->
       error_queue s = [] -> exit a = ExitTimeout) /\
      (n = 0%nat -> exit a = ExitTimeout).
Proof.
  induction n as [|n IH]; intros now todo s last consumer Hstop Hq Hsilent Hnow Hn;
    rewrite monitor_unfold;
    destruct (run_worker_silent now todo s Hstop Hsilent) as [Hq1 [Hstop1 Hsilent1]];
    pose proof (fun limit => run_worker_compose now limit todo s) as Hcomp;
    pose proof (run_worker_incomplete now todo s) as Hinc;
    destruct (run_worker kind now todo s) as [s1 todo1]; cbn [fst snd] in *;
    rewrite Z.sub_0_r; rewrite andb_true_r; simpl andb.
  - (* no poll left: the deadline has come *)
    assert (Hlate : (now >=? 1000 * timeout) = true) by (apply Z.geb_le; lia).
    rewrite Hlate.
    eexists. split; [reflexivity|]. cbn [yields exit end_time final set_stop stop_event].
    repeat split; auto; lia.
  - specialize (Hn ltac:(discriminate)).
    assert (Hearly : (now >=? 1000 * timeout) = false)
      by (rewrite Z.geb_leb; apply Z.leb_gt; lia).
    rewrite Hearly. specialize (Hcomp (now + 500 * Z.of_nat (S n)) ltac:(lia)).
    assert (Hnot1 : completion_event
                      (fst (run_worker kind (now + 500 * Z.of_nat (S n)) todo s)) = false ->
                    error_queue s = [] ->
                    completion_event s1 = false /\ error_queue s1 = []).
    { intros Hc He. rewrite <- Hcomp in Hc.
      apply run_worker_incomplete in Hc. destruct Hc as [Hc _].
      destruct (Hinc Hc) as [_ [He1 _]]. split; congruence. }
    destruct (error_queue s1) as [|error errors] eqn:Herr.
    + rewrite Hq1, Hq. simpl is_nil. rewrite andb_true_r.
      destruct (completion_event s1) eqn:Hdone.
      { eexists. split; [reflexivity|].
        cbn [yields exit end_time final set_stop stop_event].
        repeat split; auto; try lia; try discriminate.
        intros Hc He. destruct (Hnot1 Hc He). discriminate. }
      unfold get. rewrite Hq1, Hq.
      rewrite (wait_put_silent (now + 500) todo1 now s1 Hstop1 (eq_trans Hq1 Hq) Hsilent1).
      destruct (run_worker_silent (now + 500) todo1 s1 Hstop1 Hsilent1)
        as [Hq2 [Hstop2 Hsilent2]].
      assert (Hcomp2 : run_worker kind (now + 500 * Z.of_nat (S n))
                         (snd (run_worker kind (now + 500) todo1 s1))
                         (fst (run_worker kind (now + 500) todo1 s1))
                       = run_worker kind (now + 500 * Z.of_nat (S n)) todo1 s1)
        by (apply run_worker_compose; lia).
      pose proof (run_worker_incomplete (now + 500) todo1 s1) as Hinc2.
      destruct (run_worker kind (now + 500) todo1 s1) as [s2 todo2];
        cbn [fst snd] in *.
      assert (Hnot2 : completion_event
                        (fst (run_worker kind (now + 500 * Z.of_nat (S n)) todo s)) = false ->
                      error_queue s = [] ->
                      completion_event s2 = false /\ error_queue s2 = []).
      { intros Hc He. rewrite <- Hcomp, <- Hcomp2 in Hc.
        apply run_worker_incomplete in Hc. destruct Hc as [Hc _].
        destruct (Hinc2 Hc) as [_ [He2 _]]. split; congruence. }
      destruct (negb (thread_alive s2) && is_nil (result_queue s2) && completion_event s2)
               eqn:Hdead.
      { eexists. split; [reflexivity|].
        cbn [yields exit end_time final set_stop stop_event].
        repeat split; auto; try lia; try discriminate.
        intros Hc He. destruct (Hnot2 Hc He) as [Hc2 _].
        rewrite Hc2, andb_false_r in Hdead. discriminate. }
      assert (Hsame : now + 500 + 500 * Z.of_nat n = now + 500 * Z.of_nat (S n)) by lia.
      destruct (IH (now + 500) todo2 s2 last consumer Hstop2 (eq_trans Hq2 (eq_trans Hq1 Hq))
                   Hsilent2)
        as [a [Hrun [Hy [Hend [Hto [Hnever _]]]]]]; [lia | lia |].
      rewrite Hsame in Hend, Hto, Hnever.
      exists a. split; [exact Hrun|]. split; [exact Hy|]. split; [exact Hend|].
      split; [exact Hto|]. split; [|discriminate].
      intros Hc He. apply Hnever.
      * rewrite Hcomp2, Hcomp. exact Hc.
      * now destruct (Hnot2 Hc He).
    + eexists. split; [reflexivity|].
      cbn [yields exit end_time final set_stop stop_event].
      repeat split; auto; try lia; try discriminate.
      intros Hc He. destruct (Hnot1 Hc He). discriminate.
Qed.

(** *** A worker that completes *)

Lemma due_by_mono (T T' : Z) (todo : provider_stream) :
  T <= T' -> due_by T todo -> due_by T' todo.
Proof.
  intros Hle. unfold due_by. apply Forall_impl. intros item. lia.
Qed.

Lemma due_by_exists (todo : provider_stream) :
  exists k : nat, due_by (500 * Z.of_nat k) todo.
Proof.
  induction todo as [|[t it] todo [k IH]].
  - exists 0%nat. constructor.
  - exists (Nat.max (Z.to_nat t) k). constructor.
    + cbn [fst]. lia.
    + eapply due_by_mono; [|exact IH]. lia.
Qed.

Lemma run_worker_live (limit : Z) (todo : provider_stream) :
  forall s, live todo s ->
    live (snd (run_worker kind limit todo s)) (fst (run_worker kind limit todo s)) /\
    (backlog kind (snd (run_worker kind limit todo s)) (fst (run_worker kind limit todo s))
     <= backlog kind todo s)%nat /\
    (forall T, due_by T todo -> due_by T (snd (run_worker kind limit todo s))) /\
    (due_by limit todo -> snd (run_worker kind limit todo s) = []).
Proof.
  induction todo as [|[t it] todo IH]; intros s Hlive; simpl.
  - repeat split; auto; apply Hlive.
  - destruct Hlive as [Hstop [Halive Hrest]].
    destruct (completion_event s) eqn:Hdone; [discriminate|]. simpl in Halive.
    destruct (t <=? limit) eqn:Hdue; zbool.
    + destruct it as [content| |e]; simpl in *.
      * rewrite Hstop.
        assert (Hnext : forall s', stop_event s' = false -> thread_alive s' = true ->
                                   completion_event s' = false -> live todo s').
        { intros s' H1 H2 H3. unfold live. now rewrite H1, H2, H3. }
        destruct (puts kind content) eqn:Hputs.
        -- simpl thread_alive. rewrite Halive.
           destruct (IH (put content s) (Hnext _ Hstop Halive Hdone)) as [H1 [H2 [H3 H4]]].
           repeat split; try apply H1.
           ++ unfold backlog in *. simpl in *. rewrite Hputs. rewrite length_app in H2.
              simpl in *. lia.
           ++ intros T HT. apply H3. now inversion HT.
           ++ intros HT. apply H4. now inversion HT.
        -- rewrite Halive.
           destruct (IH s (Hnext _ Hstop Halive Hdone)) as [H1 [H2 [H3 H4]]].
           repeat split; try apply H1.
           ++ unfold backlog in *. simpl. now rewrite Hputs.
           ++ intros T HT. apply H3. now inversion HT.
           ++ intros HT. apply H4. now inversion HT.
      * unfold live, backlog. simpl. repeat split; auto; try lia. constructor.
      * unfold live, backlog. simpl. repeat split; auto; try lia. constructor.
    + simpl. unfold live. rewrite Hdone. repeat split; auto.
      intros HT. inversion HT; subst. simpl in *. lia.
Qed.

Lemma wait_put_live (limit : Z) (todo : provider_stream) :
  forall cur s, live todo s -> result_queue s = [] ->
    match wait_put kind limit cur todo s with
    | (Some (t, _), s', todo') =>
        live todo' s' /\ (S (backlog kind todo' s') <= backlog kind todo s)%nat /\
        cur <= t /\ (forall T, due_by T todo -> due_by T todo')
    | (None, s', todo') =>
        live todo' s' /\ (backlog kind todo' s' <= backlog kind todo s)%nat /\
        (forall T, due_by T todo -> due_by T todo')
    end.
Proof.
  induction todo as [|[t it] todo IH]; intros cur s Hlive Hq; simpl.
  - repeat split; auto; apply Hlive.
  - destruct Hlive as [Hstop [Halive Hrest]].
    destruct (completion_event s) eqn:Hdone; [discriminate|]. simpl in Halive.
    destruct (t <=? limit) eqn:Hdue; zbool.
    + destruct it as [content| |e]; simpl in *.
      * rewrite Hstop.
        assert (Hnext : forall s', stop_event s' = false -> thread_alive s' = true ->
                                   completion_event s' = false -> live todo s').
        { intros s' H1 H2 H3. unfold live. now rewrite H1, H2, H3. }
        destruct (puts kind content) eqn:Hputs.
        -- simpl. rewrite Hq. simpl. rewrite Halive.
           split; [now apply Hnext|]. split; [|split; [lia|]].
           ++ unfold backlog. simpl. rewrite Hq, Hputs. simpl. lia.
           ++ intros T HT. now inversion HT.
        -- rewrite Hq, Halive.
           specialize (IH (Z.max cur t) s (Hnext _ Hstop Halive Hdone) Hq).
           destruct (wait_put kind limit (Z.max cur t) todo s) as [[[[t' c]|] s'] todo'].
           ++ destruct IH as [H1 [H2 [H3 H4]]]. repeat split; try apply H1; try lia.
              ** unfold backlog in *. simpl. now rewrite Hputs.
              ** intros T HT. apply H4. now inversion HT.
           ++ destruct IH as [H1 [H2 H3]]. repeat split; try apply H1.
              ** unfold backlog in *. simpl. now rewrite Hputs.
              ** intros T HT. apply H3. now inversion HT.
      * rewrite Hq. unfold live, backlog. simpl. repeat split; auto; try lia. constructor.
      * rewrite Hq. unfold live, backlog. simpl. repeat split; auto; try lia. constructor.
    + unfold live. rewrite Hdone. repeat split; auto.
Qed.

Lemma live_with_queues (todo : provider_stream) (s : shared) (q : list string)
      (errors : list exn) :
  live todo s -> live todo (with_queues q errors s).
Proof. exact (fun H => H). Qed.

(** Every turn of the loop that does not leave it takes a chunk or lets
    half a second pass: [n] bounds the chunks still to come, [k] the polls
    until the worker is done. *)
Lemma monitor_terminates (timeout start_time : Z) (m : nat) :
  forall (n k : nat) now todo s has_received_data last_chunk_time consumer,
    (n + k <= m)%nat ->
    live todo s -> (backlog kind todo s <= n)%nat ->
    due_by (now + 500 * Z.of_nat k) todo ->
    exists a,
      monitor (S m) kind timeout start_time now todo s has_received_data
              last_chunk_time consumer = Some a.
Proof.
  induction m as [|m IH]; intros n k now todo s has last consumer Hm Hlive Hn Hdue;
    rewrite monitor_unfold;
    destruct (run_worker_live now todo s Hlive) as [Hlive1 [Hback1 [Hdue1 Hdone1]]];
    destruct (run_worker kind now todo s) as [s1 todo1]; cbn [fst snd] in *;
    (destruct ((now - start_time >=? 1000 * timeout) && negb has); [now eexists|]);
    (destruct (has && (now - last >=? 10000) && completion_event s1); [now eexists|]);
    (destruct (error_queue s1) as [|error errors] eqn:Herr; [|now eexists]);
    (destruct (completion_event s1 && is_nil (result_queue s1)) eqn:Hdrained; [now eexists|]).
  - (* no chunk and no poll left: the worker is done and the queue empty *)
    exfalso. assert (n = 0%nat /\ k = 0%nat) as [-> ->] by lia.
    rewrite Z.mul_0_r, Z.add_0_r in Hdue. specialize (Hdone1 Hdue). subst todo1.
    destruct Hlive1 as [_ [_ Hc]].
    destruct (completion_event s1); [|discriminate].
    unfold backlog in *. destruct (result_queue s1); [discriminate | simpl in *; lia].
  - unfold get. destruct (result_queue s1) as [|chunk q] eqn:Hq.
    + pose proof (wait_put_live (now + 500) todo1 now s1 Hlive1 Hq) as Hwait.
      destruct (wait_put kind (now + 500) now todo1 s1) as [[[[t' c]|] s2] todo2].
      * destruct Hwait as [Hlive2 [Hback2 [Ht' Hdue2]]].
        destruct n as [|n]; [lia|].
        destruct (IH n k (t' + Z.of_N (hd 0%N consumer)) todo2 s2 true t' (tl consumer))
          as [a Ha]; [lia | exact Hlive2 | lia | |].
        { apply Hdue2, Hdue1. eapply due_by_mono; [|exact Hdue]. lia. }
        rewrite Ha. now eexists.
      * destruct Hwait as [Hlive2 [Hback2 Hdue2]].
        destruct (negb (thread_alive s2) && is_nil (result_queue s2) && completion_event s2);
          [now eexists|].
        destruct k as [|k].
        { exfalso. rewrite Z.mul_0_r, Z.add_0_r in Hdue. specialize (Hdone1 Hdue).
          subst todo1. destruct Hlive1 as [_ [_ Hc]].
          destruct (completion_event s1); discriminate. }
        apply (IH n k); [lia | exact Hlive2 | lia |].
        apply Hdue2, Hdue1. eapply due_by_mono; [|exact Hdue]. lia.
    + destruct n as [|n]; [unfold backlog in *; rewrite Hq in *; simpl in *; lia|].
      destruct (IH n k (now + Z.of_N (hd 0%N consumer)) todo1
                   (with_queues q (error_queue s1) s1) true now (tl consumer))
        as [a Ha]; [lia | now apply live_with_queues | | |].
      { unfold backlog in *. rewrite Hq in *. simpl in *. lia. }
      { apply Hdue1. eapply due_by_mono; [|exact Hdue]. lia. }
      rewrite Ha. now eexists.
Qed.

(** *** A worker that goes silent without completing *)

(** After a first chunk, with nothing in the queues, no completion event and
    a provider call that blocks for ever, no turn of the loop leaves it. *)
Lemma monitor_hangs (timeout start_time : Z) (fuel : nat) :
  forall now last_chunk_time consumer s,
    result_queue s = [] -> error_queue s = [] -> completion_event s = false ->
    thread_alive s = true ->
    monitor fuel kind timeout start_time now [] s true last_chunk_time consumer = None.
Proof.
  induction fuel as [|fuel IH]; intros now last consumer s Hq He Hc Ha; [reflexivity|].
  rewrite monitor_unfold. cbn [run_worker].
  rewrite andb_false_r, Hc, andb_false_r, He. cbn [andb].
  unfold get. rewrite Hq. cbn [wait_put]. rewrite Ha. cbn [negb andb].
  now apply IH.
Qed.

End Monitor.

(** *** Order of the chunks *)

Section Ordering.

Import ChatHandler.

Variable kind : string.

Lemma run_worker_future (limit : Z) (todo : provider_stream) :
  forall s, sane todo s ->
    sane (snd (run_worker kind limit todo s)) (fst (run_worker kind limit todo s)) /\
    future kind (snd (run_worker kind limit todo s)) (fst (run_worker kind limit todo s))
    = future kind todo s.
Proof.
  induction todo as [|[t it] todo IH]; intros s Hsane; simpl; [auto|].
  destruct Hsane as [Hstop [Halive Hdone]].
  destruct (completion_event s) eqn:Hc; [now specialize (Hdone eq_refl)|].
  simpl in Halive. destruct (t <=? limit).
  - assert (Hnext : forall s', stop_event s' = false -> thread_alive s' = true ->
                               completion_event s' = false -> sane todo s').
    { intros s' H1 H2 H3. unfold sane. rewrite H1, H2, H3. repeat split; auto; discriminate. }
    destruct it as [content| |e]; simpl.
    + rewrite Hstop. destruct (puts kind content) eqn:Hputs.
      * simpl thread_alive. rewrite Halive.
        destruct (IH (put content s) (Hnext _ Hstop Halive Hc)) as [H1 H2].
        split; [exact H1|]. rewrite H2. unfold future. simpl. rewrite Hputs.
        now rewrite <- app_assoc.
      * rewrite Halive. destruct (IH s (Hnext _ Hstop Halive Hc)) as [H1 H2].
        split; [exact H1|]. rewrite H2. unfold future. simpl. now rewrite Hputs.
    + unfold sane, future. simpl. auto.
    + unfold sane, future. simpl. auto.
  - simpl. unfold sane. rewrite Hstop, Halive, Hc. repeat split; auto.
Qed.

Lemma wait_put_future (limit : Z) (todo : provider_stream) :
  forall cur s, sane todo s -> result_queue s = [] ->
    match wait_put kind limit cur todo s with
    | (Some (_, chunk), s', todo') =>
        sane todo' s' /\ future kind todo s = chunk :: future kind todo' s'
    | (None, s', todo') =>
        sane todo' s' /\ future kind todo s = future kind todo' s'
    end.
Proof.
  induction todo as [|[t it] todo IH]; intros cur s Hsane Hq; simpl; [auto|].
  destruct Hsane as [Hstop [Halive Hdone]].
  destruct (completion_event s) eqn:Hc; [now specialize (Hdone eq_refl)|].
  simpl in Halive. destruct (t <=? limit).
  - assert (Hnext : forall s', stop_event s' = false -> thread_alive s' = true ->
                               completion_event s' = false -> sane todo s').
    { intros s' H1 H2 H3. unfold sane. rewrite H1, H2, H3. repeat split; auto; discriminate. }
    destruct it as [content| |e]; simpl.
    + rewrite Hstop. destruct (puts kind content) eqn:Hputs.
      * simpl. rewrite Hq. simpl. rewrite Halive.
        split; [now apply Hnext|]. unfold future. simpl. now rewrite Hq, Hputs.
      * rewrite Hq, Halive.
        specialize (IH (Z.max cur t) s (Hnext _ Hstop Halive Hc) Hq).
        destruct (wait_put kind limit (Z.max cur t) todo s) as [[[[t' c]|] s'] todo'];
          destruct IH as [H1 H2]; (split; [exact H1|]);
          rewrite <- H2; unfold future; simpl; now rewrite Hputs.
    + rewrite Hq. unfold sane, future. simpl. rewrite Hq. auto.
    + rewrite Hq. unfold sane, future. simpl. rewrite Hq. auto.
  - unfold sane. rewrite Hstop, Halive, Hc. repeat split; auto.
Qed.

(** What an attempt yields is an initial part of what is on the queue or
    still to be put, in the same order; it is all of it when the loop is left
    through one of the two [break]s that test [result_queue.empty()]. *)
Lemma monitor_prefix (fuel : nat) :
  forall timeout start_time now todo s has_received_data last_chunk_time consumer a,
    sane todo s ->
    monitor fuel kind timeout start_time now todo s has_received_data last_chunk_time consumer
      = Some a ->
    exists rest,
      future kind todo s = (yields a ++ rest)%list /\
      (exit a = ExitDrained \/ exit a = ExitDead -> rest = []).
Proof.
  induction fuel as [|fuel IH];
    intros timeout start_time now todo s has last consumer a Hsane; [discriminate|].
  rewrite monitor_unfold.
  destruct (run_worker_future now todo s Hsane) as [Hsane1 Hfut1].
  destruct (run_worker kind now todo s) as [s1 todo1]. cbn [fst snd] in *.
  rewrite <- Hfut1.
  destruct ((now - start_time >=? 1000 * timeout) && negb has).
  { intros [= <-]. eexists. split; [reflexivity|]. intros [H|H]; discriminate. }
  destruct (has && (now - last >=? 10000) && completion_event s1).
  { intros [= <-]. eexists. split; [reflexivity|]. intros [H|H]; discriminate. }
  destruct (error_queue s1).
  2:{ intros [= <-]. eexists. split; [reflexivity|]. intros [H|H]; discriminate. }
  destruct (completion_event s1 && is_nil (result_queue s1)) eqn:Hdrained.
  { intros [= <-]. eexists. split; [reflexivity|]. intros _.
    apply andb_prop in Hdrained. destruct Hdrained as [Hc Hnil].
    destruct Hsane1 as [_ [_ Hdone]]. rewrite (Hdone Hc). unfold future.
    destruct (result_queue s1); [reflexivity | discriminate]. }
  unfold get. destruct (result_queue s1) as [|chunk q] eqn:Hq.
  - pose proof (wait_put_future (now + 500) todo1 now s1 Hsane1 Hq) as Hwait.
    destruct (wait_put kind (now + 500) now todo1 s1) as [[[[t' c]|] s2] todo2];
      destruct Hwait as [Hsane2 Hfut2]; rewrite Hfut2.
    + destruct (monitor fuel _ _ _ _ _ _ _ _ _) as [a'|] eqn:Hrec; [|discriminate].
      intros [= <-]. destruct (IH _ _ _ _ _ _ _ _ _ Hsane2 Hrec) as [rest [Hrest Hall]].
      exists rest. simpl. now rewrite Hrest.
    + destruct (negb (thread_alive s2) && is_nil (result_queue s2) && completion_event s2)
               eqn:Hdead.
      * intros [= <-]. eexists. split; [reflexivity|]. intros _.
        apply andb_prop in Hdead. destruct Hdead as [Hdead Hc].
        apply andb_prop in Hdead. destruct Hdead as [_ Hnil].
        destruct Hsane2 as [_ [_ Hdone]]. rewrite (Hdone Hc). unfold future.
        destruct (result_queue s2); [reflexivity | discriminate].
      * now apply IH.
  - destruct (monitor fuel _ _ _ _ _ _ _ _ _) as [a'|] eqn:Hrec; [|discriminate].
    intros [= <-].
    assert (Hsane' : sane todo1 (with_queues q (error_queue s1) s1)) by exact Hsane1.
    destruct (IH _ _ _ _ _ _ _ _ _ Hsane' Hrec) as [rest [Hrest Hall]].
    exists rest. simpl. unfold future in *. rewrite Hq. simpl in *. now rewrite Hrest.
Qed.

End Ordering.

(** X1.  In every attempt the chunks yielded are, in order, an initial part
    of the chunks the worker enqueues for that attempt (nothing is reordered
    and nothing foreign is yielded); they are all of them when the loop is
    left through one of the two [break]s that test [result_queue.empty()]. *)
Theorem attempt_yields_in_order (fuel : nat) (kind : string)
        (stream : ChatHandler.provider_stream) (timeout : Z) (consumer : list N)
        (a : ChatHandler.attempt) :
  ChatHandler._stream_with_timeout fuel kind stream timeout consumer = Some a ->
  exists rest,
    ChatHandler.enqueued kind stream = (ChatHandler.yields a ++ rest)%list /\
    (ChatHandler.exit a = ChatHandler.ExitDrained \/
     ChatHandler.exit a = ChatHandler.ExitDead -> rest = []).
Proof.
  intros Hrun. apply (monitor_prefix kind) in Hrun; [exact Hrun|].
  unfold ChatHandler.sane. simpl. repeat split; auto; discriminate.
Qed.

Lemma attempt_yields_in_order_witness :
  exists a rest,
    ChatHandler._stream_with_timeout 4 "groq"
      [(0, ChatHandler.Chunk "a"); (1000, ChatHandler.Chunk "b"); (1000, ChatHandler.Exhausted)]
      30 [] = Some a /\
    ["a"; "b"] = (ChatHandler.yields a ++ rest)%list /\ rest = [].
Proof.
  destruct (attempt_yields_in_order 4 "groq"
              [(0, ChatHandler.Chunk "a"); (1000, ChatHandler.Chunk "b");
               (1000, ChatHandler.Exhausted)]
              30 []
              (ChatHandler.mkAttempt ["a"; "b"] ChatHandler.ExitDrained 1000
                 (ChatHandler.mkShared [] [] false true false)))
    as [rest [Hrest Hall]].
  - vm_compute. reflexivity.
  - eexists _, rest. split; [vm_compute; reflexivity|].
    split; [exact Hrest | apply Hall; now left].
Defined.

(** C2 (counterexample).  A Groq call that delivers one chunk and then
    blocks for ever never sets the completion event, and the loop of its
    attempt has no end, whatever the number of turns it is given. *)
Lemma C2_silent_worker_never_ends :
  ChatHandler.enqueued "groq" [(0, ChatHandler.Chunk "a")] = ["a"] /\
  ChatHandler.completes "groq" [(0, ChatHandler.Chunk "a")] = false /\
  forall fuel,
    ChatHandler._stream_with_timeout fuel "groq" [(0, ChatHandler.Chunk "a")] 30 [] = None.
Proof.
  split; [reflexivity|]. split; [reflexivity|].
  intros [|fuel]; [reflexivity|].
  unfold ChatHandler._stream_with_timeout. rewrite monitor_unfold.
  cbn -[ChatHandler.monitor]. now rewrite monitor_hangs.
Qed.

(** C2 (amended).  The loop of an attempt ends whenever the worker reaches
    its [completion_event.set()] (at the end of the stream or on an error),
    and whenever the worker puts no chunk at all. *)
Theorem C2_drain_terminates (kind : string) (stream : ChatHandler.provider_stream)
        (timeout : Z) (consumer : list N) :
  ChatHandler.completes kind stream = true \/ ChatHandler.enqueued kind stream = [] ->
  exists fuel a,
    ChatHandler._stream_with_timeout fuel kind stream timeout consumer = Some a.
Proof.
  unfold ChatHandler.completes, ChatHandler.enqueued, ChatHandler._stream_with_timeout.
  set (todo := ChatHandler.worker_script kind stream).
  intros [Hcompletes|Hsilent].
  - destruct (due_by_exists todo) as [k Hk].
    exists (S (ChatHandler.backlog kind todo ChatHandler.fresh + k)).
    apply (monitor_terminates kind timeout 0 _ (ChatHandler.backlog kind todo ChatHandler.fresh) k).
    + lia.
    + unfold ChatHandler.live. simpl. auto.
    + lia.
    + exact Hk.
  - destruct (monitor_silent kind timeout (Z.to_nat (2 * timeout)) 0 todo
                             ChatHandler.fresh 0 consumer)
      as [a [Ha _]]; try reflexivity; try assumption; try lia.
    now exists (S (Z.to_nat (2 * timeout))), a.
Qed.

Lemma C2_drain_terminates_witness :
  exists fuel a,
    ChatHandler._stream_with_timeout
      fuel "groq" [(0, ChatHandler.Chunk "a"); (700, ChatHandler.Exhausted)] 30 [] = Some a.
Proof.
  apply (C2_drain_terminates "groq"
           [(0, ChatHandler.Chunk "a"); (700, ChatHandler.Exhausted)] 30 []).
  left. reflexivity.
Defined.



(** C5 (the code at the failing input).  A Groq stream delivers ["a"] at
    once, ["b"] after one second and ends; the consumer of the generator
    takes 11 s over the first chunk.  The attempt ends through the
    quiet-period [break], as a success, with ["b"] still on the result
    queue. *)
Lemma C5_quiet_break_leaves_chunk_on_queue :
  ChatHandler.enqueued "groq"
    [(0, ChatHandler.Chunk "a"); (1000, ChatHandler.Chunk "b"); (1000, ChatHandler.Exhausted)]
    = ["a"; "b"] /\
  exists a,
    ChatHandler._stream_with_timeout 2 "groq"
      [(0, ChatHandler.Chunk "a"); (1000, ChatHandler.Chunk "b"); (1000, ChatHandler.Exhausted)]
      30 [11000%N] = Some a /\
    ChatHandler.yields a = ["a"] /\
    ChatHandler.exit a = ChatHandler.ExitQuiet /\
    ChatHandler.raised "mixtral-8x7b" 30 a = None /\
    ChatHandler.result_queue (ChatHandler.final a) = ["b"].
Proof.
  split; [reflexivity|]. eexists. split; [vm_compute; reflexivity|].
  repeat split.
Qed.

(** C6 (the code at the failing input).  A Groq call raises 200 ms after
    the thread has started, while the monitor is blocked in its first
    [get]: the worker puts the error on the error queue and sets the
    completion event, and the attempt ends half a second after its start
    through the [break] of the [queue.Empty] handler, as a success without
    a chunk, the error still on the error queue and the stop event not
    set. *)
Lemma C6_error_during_poll_ends_as_success :
  let e := mkExn ExceptionC "Error code: 401 - Invalid API Key" in
  ChatHandler.raises_by (ChatHandler.worker_script "groq" [(200, ChatHandler.Raises e)])
    = Some e /\
  ChatHandler.error_queue
    (ChatHandler.worker_state_at "groq" [(200, ChatHandler.Raises e)] 200) = [e] /\
  ChatHandler.completion_event
    (ChatHandler.worker_state_at "groq" [(200, ChatHandler.Raises e)] 200) = true /\
  exists a,
    ChatHandler._stream_with_timeout 2 "groq" [(200, ChatHandler.Raises e)] 30 [] = Some a /\
    ChatHandler.yields a = [] /\
    ChatHandler.exit a = ChatHandler.ExitDead /\
    ChatHandler.end_time a = 500 /\
    ChatHandler.raised "mixtral-8x7b" 30 a = None /\
    ChatHandler.error_queue (ChatHandler.final a) = [e] /\
    ChatHandler.stop_event (ChatHandler.final a) = false.
Proof.
  intros e. repeat (split; [reflexivity|]).
  eexists. split; [vm_compute; reflexivity|]. repeat split.
Qed.

(** ** The fallback orchestrator *)

Section Fallback.

Import ChatHandler.

Variable run : string -> ModelManager.model_config -> Z -> option attempt.
Variable self : ModelManager.t.
Variable timeout : Z.

Lemma started_app (evs evs' : list event) :
  started (evs ++ evs') = (started evs ++ started evs')%list.
Proof. unfold started. apply flat_map_app. Qed.

Lemma yielded_app (evs evs' : list event) :
  yielded (evs ++ evs') = (yielded evs ++ yielded evs')%list.
Proof. unfold yielded. apply flat_map_app. Qed.

Lemma started_Yielded (chunks : list string) : started (map Yielded chunks) = [].
Proof. induction chunks; simpl; auto. Qed.

Lemma yielded_Yielded (chunks : list string) : yielded (map Yielded chunks) = chunks.
Proof. induction chunks; simpl; congruence. Qed.

Lemma started_attempt_events (attempt : Z) (m : string) (cfg : ModelManager.model_config)
      (a : ChatHandler.attempt) :
  started (attempt_events attempt m cfg a) = [m].
Proof.
  unfold attempt_events. rewrite started_app. destruct (attempt >? 0); simpl;
    now rewrite started_Yielded.
Qed.

Lemma Slept_attempt_events (attempt : Z) (m : string) (cfg : ModelManager.model_config)
      (a : ChatHandler.attempt) (ms : Z) :
  ~ In (Slept ms) (attempt_events attempt m cfg a).
Proof.
  unfold attempt_events. rewrite in_app_iff. intros [H|[H|H]].
  - destruct (attempt >? 0); [destruct H as [H|[]]; discriminate | contradiction].
  - discriminate.
  - apply in_map_iff in H. destruct H as [c [H _]]. discriminate.
Qed.

(** When every attempt comes to an end, the loop does: it starts the
    candidates in the order of the list, each at most once, and never
    sleeps. *)
Lemma try_models_total (models : list string) :
  (forall m cfg, ModelManager.get_model_config self m = Some cfg ->
                 exists a, run m cfg timeout = Some a) ->
  forall attempt last_error,
  exists evs e,
    try_models run self timeout attempt models last_error = Some (evs, e) /\
    incl (started evs) models /\
    (NoDup models -> NoDup (started evs)) /\
    (forall ms, ~ In (Slept ms) evs).
Proof.
  intros Hrun. induction models as [|m models IH]; intros attempt last_error; simpl.
  - do 2 eexists. split; [reflexivity|]. simpl. repeat split.
    + apply incl_refl.
    + constructor.
    + intros ms [H|[]]. discriminate.
  - assert (Hskip : forall last,
      exists evs e,
        try_models run self timeout (attempt + 1) models last = Some (evs, e) /\
        incl (started evs) (m :: models) /\
        (NoDup (m :: models) -> NoDup (started evs)) /\
        (forall ms, ~ In (Slept ms) evs)).
    { intros last. destruct (IH (attempt + 1) last) as [evs [e [H1 [H2 [H3 H4]]]]].
      exists evs, e. repeat split; auto.
      - now apply incl_tl.
      - intros Hnd. apply H3. now inversion Hnd. }
    destruct (ModelManager.get_model_config self m) as [cfg|] eqn:Hcfg; [|apply Hskip].
    destruct (ModelManager.get_client self m) as [[client|]|e]; try apply Hskip.
    destruct (Hrun m cfg Hcfg) as [a Ha]. rewrite Ha.
    fold (attempt_events attempt m cfg a).
    destruct (raised m timeout a) as [e|].
    + destruct (IH (attempt + 1) (Some (caught m timeout e))) as [evs [e' [H1 [H2 [H3 H4]]]]].
      rewrite H1. simpl. do 2 eexists. split; [reflexivity|].
      rewrite started_app, started_attempt_events. simpl. repeat split.
      * intros x [<-|Hx]; [now left | right; now apply H2].
      * intros Hnd. inversion Hnd as [|? ? Hnotin Hnd']; subst.
        constructor; [|now apply H3]. intros Hin. apply Hnotin. now apply H2.
      * intros ms Hin. apply in_app_iff in Hin. destruct Hin as [Hin|Hin].
        -- now apply Slept_attempt_events in Hin.
        -- now apply H4 in Hin.
    + do 2 eexists. split; [reflexivity|].
      rewrite started_attempt_events. repeat split.
      * intros x [<-|[]]. now left.
      * intros _. repeat constructor. intros [].
      * apply Slept_attempt_events.
Qed.

(** When every attempt fails, the loop runs to its end: its last event is
    the error text, yielded like a chunk, and it raises the exception of
    the same message. *)
Lemma try_models_all_fail (models : list string) :
  (forall m cfg, ModelManager.get_model_config self m = Some cfg ->
                 exists a e, run m cfg timeout = Some a /\ raised m timeout a = Some e) ->
  forall attempt last_error,
  exists evs last,
    try_models run self timeout attempt models last_error
      = Some ((evs ++ [Yielded (error_fragment (all_failed_msg last))])%list,
              Raised (mkExn ExceptionC (all_failed_msg last))).
Proof.
  intros Hrun. induction models as [|m models IH]; intros attempt last_error; simpl.
  - exists [], last_error. reflexivity.
  - destruct (ModelManager.get_model_config self m) as [cfg|] eqn:Hcfg; [|apply IH].
    destruct (ModelManager.get_client self m) as [[client|]|e]; try apply IH.
    destruct (Hrun m cfg Hcfg) as [a [e [Ha He]]]. rewrite Ha, He.
    fold (attempt_events attempt m cfg a).
    destruct (IH (attempt + 1) (Some (caught m timeout e))) as [evs [last H]].
    rewrite H. cbn [prepend].
    exists (attempt_events attempt m cfg a ++ evs)%list, last.
    now rewrite <- app_assoc.
Qed.

End Fallback.

Lemma all_failed_msg_not_empty (last_error : option string) :
  ChatHandler.all_failed_msg last_error <> "".
Proof. unfold ChatHandler.all_failed_msg. simpl. discriminate. Qed.

Lemma init_models_to_try (env : ModelManager.environment) (model_id user_plan : string)
      (is_authenticated : bool) :
  exists fallback,
    ChatHandler.models_to_try (ModelManager.init env) model_id user_plan is_authenticated
      = Ok (model_id :: fallback) /\
    NoDup (model_id :: fallback).
Proof.
  destruct (get_fallback_models_spec (ModelManager.init env) user_plan is_authenticated
              model_id (init_keyed_by_id env) (init_NoDup env))
    as [fallback [Hfb [Hnd [Hin _]]]].
  exists fallback. split.
  - unfold ChatHandler.models_to_try. now rewrite Hfb.
  - constructor; [|exact Hnd]. intros H. apply Hin in H. now destruct H.
Qed.

(** C1 (counterexample).  The Groq call for the primary model delivers one
    chunk and raises a rate-limit error (HTTP 429).  The attempt fails with
    that error; [stream_response] starts the primary model once, does not
    sleep, and goes on to the next candidate at once. *)
Lemma C1_rate_limit_not_retried :
  let e429 := mkExn ExceptionC "Error code: 429 - Rate limit reached" in
  let p := ChatHandler.mkProviders
             (fun m => if String.eqb m "mixtral-8x7b"
                       then [(100, ChatHandler.Chunk "a"); (100, ChatHandler.Raises e429)]
                       else [(0, ChatHandler.Chunk "ok"); (0, ChatHandler.Exhausted)])
             (fun _ => []) in
  let mm := ModelManager.init (ModelManager.mkEnv None None (Some "gsk_live") None true true) in
  App.is_rate_limit_error (exn_str e429) = true /\
  (exists a,
      ChatHandler._stream_with_timeout 5 "groq" (ChatHandler.stream_of p "mixtral-8x7b") 30 []
        = Some a /\
      ChatHandler.raised "mixtral-8x7b" 30 a = Some e429) /\
  ChatHandler.stream_response (ChatHandler.run_with 5 p) mm "mixtral-8x7b" "standard" true 30
    = Some ([ ChatHandler.Started "mixtral-8x7b";
              ChatHandler.Yielded "a";
              ChatHandler.Yielded (ChatHandler.switch_notice "Llama 3.3 70B Versatile");
              ChatHandler.Started "llama-3.3-70b";
              ChatHandler.Yielded "ok" ],
            ChatHandler.Returned).
Proof.
  intros e429 p mm. split; [reflexivity|]. split.
  - eexists. split; vm_compute; reflexivity.
  - vm_compute. reflexivity.
Qed.

(** C1 (amended).  Whatever the attempts do, as long as each comes to an
    end, [stream_response] comes to an end; it starts a worker only for
    candidates of its list, for each candidate at most once (an attempt that
    fails, with a rate-limit error or any other, is followed by the next
    candidate), and it never sleeps. *)
Theorem C1_each_candidate_started_at_most_once
        (run : string -> ModelManager.model_config -> Z -> option ChatHandler.attempt)
        (env : ModelManager.environment) (model_id user_plan : string)
        (is_authenticated : bool) (timeout : Z) :
  (forall m cfg, ModelManager.get_model_config (ModelManager.init env) m = Some cfg ->
                 exists a, run m cfg timeout = Some a) ->
  exists fallback evs e,
    ChatHandler.models_to_try (ModelManager.init env) model_id user_plan is_authenticated
      = Ok (model_id :: fallback) /\
    ChatHandler.stream_response run (ModelManager.init env) model_id user_plan
                                is_authenticated timeout = Some (evs, e) /\
    NoDup (ChatHandler.started evs) /\
    incl (ChatHandler.started evs) (model_id :: fallback) /\
    (forall ms, ~ In (ChatHandler.Slept ms) evs).
Proof.
  intros Hrun.
  destruct (init_models_to_try env model_id user_plan is_authenticated)
    as [fallback [Hmodels Hnd]].
  destruct (try_models_total run (ModelManager.init env) timeout (model_id :: fallback)
                             Hrun 0 None) as [evs [e [Htry [Hincl [Hnodup Hslept]]]]].
  exists fallback, evs, e. unfold ChatHandler.stream_response. rewrite Hmodels.
  repeat split; auto.
Qed.

(** The configurations [get_model_config] returns are the nine of the
    registry. *)
Lemma init_config_cases (env : ModelManager.environment) (m : string)
      (cfg : ModelManager.model_config) :
  ModelManager.get_model_config (ModelManager.init env) m = Some cfg ->
  In (m, cfg) ModelManager.registry.
Proof. apply dict_get_Some_In. Qed.

Lemma C1_each_candidate_started_at_most_once_witness :
  exists evs e,
    ChatHandler.stream_response
      (ChatHandler.run_with 1
         (ChatHandler.mkProviders
            (fun _ => [(0, ChatHandler.Raises (mkExn ExceptionC "429 rate limit"))])
            (fun _ => [])))
      (ModelManager.init (ModelManager.mkEnv None None (Some "gsk_live") None true true))
      "mixtral-8x7b" "standard" true 30 = Some (evs, e) /\
    NoDup (ChatHandler.started evs).
Proof.
  destruct (C1_each_candidate_started_at_most_once
              (ChatHandler.run_with 1
                 (ChatHandler.mkProviders
                    (fun _ => [(0, ChatHandler.Raises (mkExn ExceptionC "429 rate limit"))])
                    (fun _ => [])))
              (ModelManager.mkEnv None None (Some "gsk_live") None true true)
              "mixtral-8x7b" "standard" true 30)
    as [fallback [evs [e [_ [Hrun [Hnd _]]]]]].
  - intros m cfg Hcfg. apply init_config_cases in Hcfg. simpl in Hcfg.
    repeat (destruct Hcfg as [Hcfg|Hcfg];
            [injection Hcfg as <- <-; eexists; vm_compute; reflexivity|]).
    contradiction.
  - exists evs, e. split; [exact Hrun | exact Hnd].
Defined.

(** C4 (counterexample).  The three candidates of an authenticated caller
    on the pro plan all fail (each Groq or Google call raises at once).  The
    event stream holds three content records, two switch notices and the
    error text, before its error record and its terminal marker. *)
Lemma C4_all_fail_stream_has_content_records :
  let e := mkExn ExceptionC "Error code: 503 - Service unavailable" in
  let p := ChatHandler.mkProviders (fun _ => [(0, ChatHandler.Raises e)]) (fun _ => []) in
  let mm := ModelManager.init
              (ModelManager.mkEnv None None (Some "gsk_live") (Some "AIza-live") true true) in
  ChatHandler.models_to_try mm "mixtral-8x7b" "pro" true
    = Ok ["mixtral-8x7b"; "llama-3.3-70b"; "gemini-pro"] /\
  App.chat_stream (ChatHandler.run_with 1 p) mm
                  (App.mkRequest (Some "hello") (Some "mixtral-8x7b") (Some "pro") (Some true)
                                 (Ok 30))
    = Some (App.EventStream
              [ App.Content (ChatHandler.switch_notice "Llama 3.3 70B Versatile");
                App.Content (ChatHandler.switch_notice "Gemini 1.5 Flash");
                App.Content
                  (ChatHandler.error_fragment
                     "All available models failed. Last error: Error code: 503 - Service unavailable");
                App.Error
                  "All available models failed. Last error: Error code: 503 - Service unavailable"
                  "api_error";
                App.Done ]).
Proof.
  intros e p mm. split; vm_compute; reflexivity.
Qed.

(** C4 (amended).  When every attempt fails, the event stream is a run of
    content records (the switch notices and the chunks relayed before the
    failures, in their order), a last content record that carries the error
    text, exactly one error record with the same, non-empty message, and the
    terminal marker. *)
Theorem C4_all_fail_stream
        (run : string -> ModelManager.model_config -> Z -> option ChatHandler.attempt)
        (env : ModelManager.environment) (model_id user_plan : string)
        (is_authenticated : bool) (timeout : Z) :
  (forall m cfg, ModelManager.get_model_config (ModelManager.init env) m = Some cfg ->
                 exists a e, run m cfg timeout = Some a /\
                             ChatHandler.raised m timeout a = Some e) ->
  exists contents msg,
    App.generate run (ModelManager.init env) model_id user_plan is_authenticated (Ok timeout)
      = Some (map App.Content contents ++
              [ App.Content (ChatHandler.error_fragment msg);
                App.Error msg "api_error";
                App.Done ])%list /\
    msg <> "".
Proof.
  intros Hrun.
  destruct (init_models_to_try env model_id user_plan is_authenticated)
    as [fallback [Hmodels _]].
  destruct (try_models_all_fail run (ModelManager.init env) timeout (model_id :: fallback)
                                Hrun 0 None) as [evs [last Htry]].
  exists (ChatHandler.yielded evs), (ChatHandler.all_failed_msg last).
  split; [|apply all_failed_msg_not_empty].
  unfold App.generate, ChatHandler.stream_response. rewrite Hmodels, Htry.
  unfold App.relay. cbn [option_map fst snd].
  rewrite yielded_app, map_app, <- app_assoc. reflexivity.
Qed.

Lemma C4_all_fail_stream_witness :
  exists contents msg,
    App.generate
      (ChatHandler.run_with 1
         (ChatHandler.mkProviders
            (fun _ => [(0, ChatHandler.Raises (mkExn ExceptionC "503 unavailable"))])
            (fun _ => [])))
      (ModelManager.init (ModelManager.mkEnv None None (Some "gsk_live") None true true))
      "mixtral-8x7b" "free" false (Ok 30)
      = Some (map App.Content contents ++
              [ App.Content (ChatHandler.error_fragment msg);
                App.Error msg "api_error";
                App.Done ])%list /\
    msg <> "".
Proof.
  apply (C4_all_fail_stream
           (ChatHandler.run_with 1
              (ChatHandler.mkProviders
                 (fun _ => [(0, ChatHandler.Raises (mkExn ExceptionC "503 unavailable"))])
                 (fun _ => [])))
           (ModelManager.mkEnv None None (Some "gsk_live") None true true)
           "mixtral-8x7b" "free" false 30).
  intros m cfg Hcfg. apply init_config_cases in Hcfg. simpl in Hcfg.
  repeat (destruct Hcfg as [Hcfg|Hcfg];
          [injection Hcfg as <- <-; do 2 eexists; split; vm_compute; reflexivity|]).
  contradiction.
Defined.

(** C9 (the code at the failing input).  An authenticated caller on the pro
    plan asks for [gpt-4o]: the first candidate has a configuration but no
    client and is passed over without an attempt; the switch notice for the
    second candidate is yielded before the first worker is started. *)
Lemma C9_notice_before_first_attempt :
  let p := ChatHandler.mkProviders
             (fun _ => [(0, ChatHandler.Chunk "ok"); (0, ChatHandler.Exhausted)])
             (fun _ => []) in
  let mm := ModelManager.init (ModelManager.mkEnv None None (Some "gsk_live") None true true) in
  ModelManager.get_client mm "gpt-4o" = Ok None /\
  ChatHandler.stream_response (ChatHandler.run_with 2 p) mm "gpt-4o" "pro" true 30
    = Some ([ ChatHandler.Yielded (ChatHandler.switch_notice "Llama 3.1 8B Instant");
              ChatHandler.Started "mixtral-8x7b";
              ChatHandler.Yielded "ok" ],
            ChatHandler.Returned).
Proof.
  intros p mm. split; vm_compute; reflexivity.
Qed.

(** ** More on the liveness monitor *)

Section MonitorExits.

Import ChatHandler.

Variable kind : string.



Lemma run_worker_error_source (R : option exn) (limit : Z) (todo : provider_stream) :
  forall s, sane todo s -> error_source R todo s ->
    error_source R (snd (run_worker kind limit todo s)) (fst (run_worker kind limit todo s)).
Proof.
  induction todo as [|[t it] todo IH]; intros s Hsane Hsrc; simpl; [exact Hsrc|].
  destruct (t <=? limit); [|exact Hsrc].
  destruct Hsane as [Hstop [Halive Hdone]]. destruct Hsrc as [Herr Hrest].
  destruct (completion_event s) eqn:Hc; [now specialize (Hdone eq_refl)|].
  simpl in Halive. specialize (Hrest eq_refl).
  assert (Hnext : forall s', stop_event s' = false -> thread_alive s' = true ->
                             completion_event s' = false -> sane todo s').
  { intros s' H1 H2 H3. unfold sane. rewrite H1, H2, H3. repeat split; auto; discriminate. }
  destruct it as [content| |e]; simpl in *.
  - rewrite Hstop. destruct (puts kind content); simpl; rewrite Halive.
    + apply IH; [now apply Hnext|]. split; [exact Herr | intros _; exact Hrest].
    + apply IH; [now apply Hnext|]. split; [exact Herr | now rewrite Hc].
  - split; [exact Herr | discriminate].
  - split; [|discriminate]. simpl. intros e' Hin.
    apply in_app_or in Hin. destruct Hin as [Hin|[<-|[]]]; [now apply Herr | now symmetry].
Qed.

Lemma wait_put_error_source (R : option exn) (limit : Z) (todo : provider_stream) :
  forall cur s, sane todo s -> result_queue s = [] -> error_source R todo s ->
    error_source R (snd (wait_put kind limit cur todo s))
                 (snd (fst (wait_put kind limit cur todo s))).
Proof.
  induction todo as [|[t it] todo IH]; intros cur s Hsane Hq Hsrc; simpl; [exact Hsrc|].
  destruct (t <=? limit); [|exact Hsrc].
  destruct Hsane as [Hstop [Halive Hdone]]. destruct Hsrc as [Herr Hrest].
  destruct (completion_event s) eqn:Hc; [now specialize (Hdone eq_refl)|].
  simpl in Halive. specialize (Hrest eq_refl).
  assert (Hnext : forall s', stop_event s' = false -> thread_alive s' = true ->
                             completion_event s' = false -> sane todo s').
  { intros s' H1 H2 H3. unfold sane. rewrite H1, H2, H3. repeat split; auto; discriminate. }
  destruct it as [content| |e]; simpl in *.
  - rewrite Hstop. destruct (puts kind content); simpl.
    + rewrite Hq. simpl. rewrite Halive. split; [exact Herr | intros _; exact Hrest].
    + rewrite Hq, Halive. apply IH; [now apply Hnext | exact Hq |].
      split; [exact Herr | now rewrite Hc].
  - rewrite Hq. simpl. split; [exact Herr | discriminate].
  - rewrite Hq. simpl. split; [|discriminate]. simpl. intros e' Hin.
    apply in_app_or in Hin. destruct Hin as [Hin|[<-|[]]]; [now apply Herr | now symmetry].
Qed.

(** How an attempt ends: the stop event is set exactly when the generator
    raises, and an error it raises from the error queue is the error of the
    provider call. *)
Lemma monitor_exits (R : option exn) (fuel : nat) :
  forall timeout start_time now todo s has_received_data last_chunk_time consumer a,
    sane todo s -> error_source R todo s ->
    monitor fuel kind timeout start_time now todo s has_received_data last_chunk_time consumer
      = Some a ->
    (stop_event (final a) = true <->
     exit a = ExitTimeout \/ exists e, exit a = ExitError e) /\
    (forall e, exit a = ExitError e -> R = Some e).
Proof.
  induction fuel as [|fuel IH];
    intros timeout start_time now todo s has last consumer a Hsane Hsrc; [discriminate|].
  rewrite monitor_unfold.
  destruct (run_worker_future kind now todo s Hsane) as [Hsane1 _].
  pose proof (run_worker_error_source R now todo s Hsane Hsrc) as Hsrc1.
  destruct (run_worker kind now todo s) as [s1 todo1]. cbn [fst snd] in *.
  assert (Hstop1 : stop_event s1 = false) by apply Hsane1.
  destruct ((now - start_time >=? 1000 * timeout) && negb has).
  { intros [= <-]. simpl. split; [|discriminate]. split; auto. }
  destruct (has && (now - last >=? 10000) && completion_event s1).
  { intros [= <-]. simpl. rewrite Hstop1. split; [|discriminate].
    split; [discriminate|]. intros [H|[e H]]; discriminate. }
  destruct (error_queue s1) as [|error errors] eqn:Herrq.
  2:{ intros [= <-]. simpl. split.
      - split; [intros _; right; now eexists | reflexivity].
      - intros e [= <-]. apply Hsrc1. rewrite Herrq. now left. }
  destruct (completion_event s1 && is_nil (result_queue s1)).
  { intros [= <-]. simpl. rewrite Hstop1. split; [|discriminate].
    split; [discriminate|]. intros [H|[e H]]; discriminate. }
  unfold get. destruct (result_queue s1) as [|chunk q] eqn:Hq.
  - pose proof (wait_put_future kind (now + 500) todo1 now s1 Hsane1 Hq) as Hwait.
    pose proof (wait_put_error_source R (now + 500) todo1 now s1 Hsane1 Hq Hsrc1) as Hsrc2.
    destruct (wait_put kind (now + 500) now todo1 s1) as [[[[t' c]|] s2] todo2];
      cbn [fst snd] in *; destruct Hwait as [Hsane2 _].
    + destruct (monitor fuel _ _ _ _ _ _ _ _ _) as [a'|] eqn:Hrec; [|discriminate].
      intros [= <-]. simpl. exact (IH _ _ _ _ _ _ _ _ _ Hsane2 Hsrc2 Hrec).
    + destruct (negb (thread_alive s2) && is_nil (result_queue s2) && completion_event s2).
      * intros [= <-]. simpl. destruct Hsane2 as [Hstop2 _]. rewrite Hstop2.
        split; [|discriminate]. split; [discriminate|]. intros [H|[e H]]; discriminate.
      * intros Hrec. exact (IH _ _ _ _ _ _ _ _ _ Hsane2 Hsrc2 Hrec).
  - destruct (monitor fuel _ _ _ _ _ _ _ _ _) as [a'|] eqn:Hrec; [|discriminate].
    intros [= <-]. simpl.
    assert (Hsane' : sane todo1 (with_queues q (error_queue s1) s1)) by exact Hsane1.
    assert (Hsrc' : error_source R todo1 (with_queues q (error_queue s1) s1)) by exact Hsrc1.
    exact (IH _ _ _ _ _ _ _ _ _ Hsane' Hsrc' Hrec).
Qed.


End MonitorExits.

Lemma sane_fresh (todo : ChatHandler.provider_stream) : ChatHandler.sane todo ChatHandler.fresh.
Proof. unfold ChatHandler.sane. simpl. repeat split; auto; discriminate. Qed.



(** At ten seconds the quiet-period test is true: the same call with a
    consumer that takes exactly ten seconds over the first chunk ends
    through the quiet-period [break] and leaves the second chunk on the
    queue. *)
Lemma ten_second_consumer_loses_chunk :
  ChatHandler._stream_with_timeout
    4 "groq"
    [(0, ChatHandler.Chunk "a"); (1000, ChatHandler.Chunk "b"); (1000, ChatHandler.Exhausted)]
    30 [10000%N]
  = Some (ChatHandler.mkAttempt ["a"] ChatHandler.ExitQuiet 10000
            (ChatHandler.mkShared ["b"] [] false true false)).
Proof. vm_compute. reflexivity. Qed.

(** X3.  At the end of an attempt the stop event is set exactly when the
    generator raises (a success never asks the worker to stop), and an error
    raised from the error queue is the error the provider call raised. *)
Theorem attempt_stop_iff_raised (fuel : nat) (kind : string)
        (stream : ChatHandler.provider_stream) (timeout : Z) (consumer : list N)
        (a : ChatHandler.attempt) (model_id : string) :
  ChatHandler._stream_with_timeout fuel kind stream timeout consumer = Some a ->
  (ChatHandler.stop_event (ChatHandler.final a) = true <->
   ChatHandler.raised model_id timeout a <> None) /\
  (forall e, ChatHandler.exit a = ChatHandler.ExitError e ->
             ChatHandler.raises_by (ChatHandler.worker_script kind stream) = Some e /\
             ChatHandler.raised model_id timeout a = Some e).
Proof.
  intros Hrun. unfold ChatHandler._stream_with_timeout in Hrun.
  destruct (monitor_exits kind (ChatHandler.raises_by (ChatHandler.worker_script kind stream))
                          fuel _ _ _ _ _ _ _ _ _ (sane_fresh _)
                          (conj (fun e (H : In e []) => match H with end) (fun _ => eq_refl))
                          Hrun) as [Hstop Herr].
  split.
  - rewrite Hstop. unfold ChatHandler.raised.
    destruct (ChatHandler.exit a); split;
      try (intros _; discriminate); try (intros _; auto; fail);
      try (intros [H|[e' H]]; discriminate); try (intros H; now contradiction H).
    + intros _. right. now eexists.
  - intros e He. split; [now apply Herr|].
    unfold ChatHandler.raised. now rewrite He.
Qed.

Lemma attempt_stop_iff_raised_witness :
  ChatHandler.stop_event
    (ChatHandler.final
       (ChatHandler.mkAttempt ["a"]
          (ChatHandler.ExitError (mkExn ExceptionC "503"))
          100 (ChatHandler.mkShared [] [] true true false))) = true <->
  ChatHandler.raised "mixtral-8x7b" 30
    (ChatHandler.mkAttempt ["a"]
       (ChatHandler.ExitError (mkExn ExceptionC "503"))
       100 (ChatHandler.mkShared [] [] true true false)) <> None.
Proof.
  apply (attempt_stop_iff_raised 3 "groq"
           [(100, ChatHandler.Chunk "a"); (100, ChatHandler.Raises (mkExn ExceptionC "503"))]
           30 [] _ "mixtral-8x7b").
  vm_compute. reflexivity.
Defined.

(** ** More on the registry and the orchestrator *)

(** With the registry of [__init__], [get_client] returns for every
    registered model, and it returns a client exactly when
    [get_available_models] reports the model available. *)
Lemma init_get_client (env : ModelManager.environment) (m : string)
      (cfg : ModelManager.model_config) :
  ModelManager.get_model_config (ModelManager.init env) m = Some cfg ->
  exists c,
    ModelManager.get_client (ModelManager.init env) m = Ok c /\
    ModelManager.is_some c = ModelManager.client_available (ModelManager.init env) cfg.
Proof.
  intros Hcfg. unfold ModelManager.get_client. rewrite Hcfg.
  apply init_config_cases in Hcfg. simpl in Hcfg.
  repeat (destruct Hcfg as [Hcfg|Hcfg];
          [ injection Hcfg as <- <-; eexists; split; [reflexivity|];
            cbn; unfold ModelManager.init_openai, ModelManager.init_anthropic;
            repeat match goal with |- context [ModelManager.truthy ?k] =>
                                     destruct (ModelManager.truthy k) end;
            try reflexivity;
            try (destruct (ModelManager.init_groq env); reflexivity);
            try (destruct (ModelManager.init_google env); reflexivity) | ]).
  contradiction.
Qed.

(** X4.  [get_client] agrees with the availability flag: for every entry
    that [get_available_models] lists, [get_client] returns a client when
    the entry is reported available and [None] when it is not. *)
Theorem get_client_matches_available (env : ModelManager.environment) (user_plan : string)
        (is_authenticated : bool) (a : ModelManager.available_model) :
  In a (ModelManager.get_available_models (ModelManager.init env) user_plan is_authenticated) ->
  (ModelManager.a_available a = true ->
   exists handle,
     ModelManager.get_client (ModelManager.init env) (ModelManager.a_id a) = Ok (Some handle)) /\
  (ModelManager.a_available a = false ->
   ModelManager.get_client (ModelManager.init env) (ModelManager.a_id a) = Ok None).
Proof.
  intros Hin. apply get_available_models_In in Hin.
  destruct Hin as [entry [Hentry [_ [_ ->]]]]. simpl.
  pose proof (get_model_config_entry (ModelManager.init env) entry
                (init_keyed_by_id env) (init_NoDup env) Hentry) as Hcfg.
  destruct (init_get_client env _ _ Hcfg) as [c [Hc Hsome]].
  rewrite Hc, <- Hsome. destruct c as [handle|]; simpl; split;
    try discriminate; intros _; [now exists handle | reflexivity].
Qed.

Lemma get_client_matches_available_witness :
  exists handle,
    ModelManager.get_client
      (ModelManager.init (ModelManager.mkEnv None None (Some "gsk_live") None true true))
      "mixtral-8x7b" = Ok (Some handle).
Proof.
  apply (get_client_matches_available
           (ModelManager.mkEnv None None (Some "gsk_live") None true true) "free" false
           (ModelManager.mkAvailable "mixtral-8x7b" "Llama 3.1 8B Instant" "Groq" "basic"
                                     8192 true)).
  - vm_compute. now left.
  - reflexivity.
Defined.

Lemma init_fallback_attemptable (env : ModelManager.environment)
      (primary_model_id user_plan : string) (is_authenticated : bool) :
  exists fallback,
    ModelManager.get_fallback_models (ModelManager.init env) primary_model_id user_plan
                                     is_authenticated = Ok fallback /\
    (forall m, In m fallback -> ChatHandler.attemptable (ModelManager.init env) m = true).
Proof.
  destruct (get_fallback_models_spec (ModelManager.init env) user_plan is_authenticated
              primary_model_id (init_keyed_by_id env) (init_NoDup env))
    as [fallback [Hfb [_ [Hin _]]]].
  exists fallback. split; [exact Hfb|].
  intros m Hm. apply Hin in Hm. destruct Hm as [_ Hm].
  apply available_model_ids_In in Hm. destruct Hm as [a [Ha [Hav <-]]].
  apply get_available_models_In in Ha. destruct Ha as [entry [Hentry [_ [_ ->]]]].
  simpl in *.
  pose proof (get_model_config_entry (ModelManager.init env) entry
                (init_keyed_by_id env) (init_NoDup env) Hentry) as Hcfg.
  destruct (init_get_client env _ _ Hcfg) as [c [Hc Hsome]].
  unfold ChatHandler.attemptable. rewrite Hcfg, Hc.
  rewrite Hav in Hsome. now destruct c.
Qed.

Lemma filter_all {A : Type} (p : A -> bool) (l : list A) :
  (forall x, In x l -> p x = true) -> filter p l = l.
Proof.
  induction l as [|x l IH]; simpl; intros H; [reflexivity|].
  rewrite (H x (or_introl eq_refl)). f_equal. apply IH. intros; apply H; now right.
Qed.

Section FirstSuccess.

Import ChatHandler.

Variable run : string -> ModelManager.model_config -> Z -> option attempt.
Variable self : ModelManager.t.
Variable timeout : Z.

(** The workers the loop starts: those of the candidates with configuration
    and client, in order, up to the first whose attempt does not raise; the
    generator returns when there is such a candidate and raises when there
    is none. *)
Lemma try_models_upto_first (models : list string) :
  (forall m cfg, ModelManager.get_model_config self m = Some cfg ->
                 exists a, run m cfg timeout = Some a) ->
  forall attempt last_error,
  exists evs e,
    try_models run self timeout attempt models last_error = Some (evs, e) /\
    started evs = upto_first (attempt_ok run self timeout) (filter (attemptable self) models) /\
    (e = Returned <->
     existsb (attempt_ok run self timeout) (filter (attemptable self) models) = true).
Proof.
  intros Hrun. induction models as [|m models IH]; intros attempt last_error.
  - do 2 eexists. split; [reflexivity|]. simpl. split; [reflexivity|].
    split; discriminate.
  - cbn [try_models filter].
    destruct (ModelManager.get_model_config self m) as [cfg|] eqn:Hcfg.
    2:{ assert (Hno : attemptable self m = false) by (unfold attemptable; now rewrite Hcfg).
        rewrite Hno. apply IH. }
    destruct (ModelManager.get_client self m) as [[client|]|e] eqn:Hclient.
    2:{ assert (Hno : attemptable self m = false)
          by (unfold attemptable; now rewrite Hcfg, Hclient).
        rewrite Hno. apply IH. }
    2:{ assert (Hno : attemptable self m = false)
          by (unfold attemptable; now rewrite Hcfg, Hclient).
        rewrite Hno. apply IH. }
    assert (Hyes : attemptable self m = true)
      by (unfold attemptable; now rewrite Hcfg, Hclient).
    rewrite Hyes. destruct (Hrun m cfg Hcfg) as [a Ha]. rewrite Ha.
    fold (attempt_events attempt m cfg a). cbn [upto_first existsb].
    destruct (raised m timeout a) as [e|] eqn:Hraised.
    + assert (Hfail : attempt_ok run self timeout m = false)
        by (unfold attempt_ok; now rewrite Hcfg, Ha, Hraised).
      rewrite Hfail.
      destruct (IH (attempt + 1) (Some (caught m timeout e))) as [evs [e' [H1 [H2 H3]]]].
      rewrite H1. cbn [prepend]. do 2 eexists. split; [reflexivity|].
      rewrite started_app, started_attempt_events. simpl. rewrite H2. split; [reflexivity|].
      exact H3.
    + assert (Hok : attempt_ok run self timeout m = true)
        by (unfold attempt_ok; now rewrite Hcfg, Ha, Hraised).
      rewrite Hok. do 2 eexists. split; [reflexivity|]. rewrite started_attempt_events.
      split; [reflexivity|]. split; reflexivity.
Qed.

End FirstSuccess.

(** X5.  [stream_response] tries the candidates in the order of its list
    until the first attempt that does not raise: it passes over the
    requested model when that has no configuration or no client, it never
    passes over a fallback model (each has both), it returns when one
    attempt succeeds and raises when none does. *)
Theorem stream_response_first_success
        (run : string -> ModelManager.model_config -> Z -> option ChatHandler.attempt)
        (env : ModelManager.environment) (model_id user_plan : string)
        (is_authenticated : bool) (timeout : Z) :
  (forall m cfg, ModelManager.get_model_config (ModelManager.init env) m = Some cfg ->
                 exists a, run m cfg timeout = Some a) ->
  exists fallback evs e,
    ModelManager.get_fallback_models (ModelManager.init env) model_id user_plan
                                     is_authenticated = Ok fallback /\
    ChatHandler.stream_response run (ModelManager.init env) model_id user_plan
                                is_authenticated timeout = Some (evs, e) /\
    ChatHandler.started evs
      = ChatHandler.upto_first
          (ChatHandler.attempt_ok run (ModelManager.init env) timeout)
          ((if ChatHandler.attemptable (ModelManager.init env) model_id
            then [model_id] else []) ++ fallback)%list /\
    (e = ChatHandler.Returned <->
     existsb (ChatHandler.attempt_ok run (ModelManager.init env) timeout)
             ((if ChatHandler.attemptable (ModelManager.init env) model_id
               then [model_id] else []) ++ fallback)%list = true).
Proof.
  intros Hrun.
  destruct (init_fallback_attemptable env model_id user_plan is_authenticated)
    as [fallback [Hfb Hall]].
  destruct (try_models_upto_first run (ModelManager.init env) timeout (model_id :: fallback)
                                  Hrun 0 None) as [evs [e [Htry [Hstarted Hend]]]].
  exists fallback, evs, e. split; [exact Hfb|].
  unfold ChatHandler.stream_response, ChatHandler.models_to_try. rewrite Hfb.
  split; [exact Htry|].
  assert (Hfilter : filter (ChatHandler.attemptable (ModelManager.init env))
                           (model_id :: fallback)
                    = ((if ChatHandler.attemptable (ModelManager.init env) model_id
                        then [model_id] else []) ++ fallback)%list).
  { simpl. rewrite (filter_all _ fallback Hall).
    now destruct (ChatHandler.attemptable (ModelManager.init env) model_id). }
  rewrite <- Hfilter. split; assumption.
Qed.

Lemma stream_response_first_success_witness :
  exists evs e,
    ChatHandler.stream_response
      (ChatHandler.run_with 2
         (ChatHandler.mkProviders
            (fun _ => [(0, ChatHandler.Chunk "ok"); (0, ChatHandler.Exhausted)])
            (fun _ => [])))
      (ModelManager.init (ModelManager.mkEnv None None (Some "gsk_live") None true true))
      "gpt-4o" "pro" true 30 = Some (evs, e) /\
    ChatHandler.started evs = ["mixtral-8x7b"] /\ e = ChatHandler.Returned.
Proof.
  destruct (stream_response_first_success
              (ChatHandler.run_with 2
                 (ChatHandler.mkProviders
                    (fun _ => [(0, ChatHandler.Chunk "ok"); (0, ChatHandler.Exhausted)])
                    (fun _ => [])))
              (ModelManager.mkEnv None None (Some "gsk_live") None true true)
              "gpt-4o" "pro" true 30)
    as [fallback [evs [e [Hfb [Hrun [Hstarted Hend]]]]]].
  - intros m cfg Hcfg. apply init_config_cases in Hcfg. simpl in Hcfg.
    repeat (destruct Hcfg as [Hcfg|Hcfg];
            [injection Hcfg as <- <-; eexists; vm_compute; reflexivity|]).
    contradiction.
  - vm_compute in Hfb. injection Hfb as <-.
    vm_compute in Hrun. injection Hrun as <- <-.
    do 2 eexists. split; [vm_compute; reflexivity|]. split; reflexivity.
Defined.

(** X6.  A server without a Groq and without a Google client answers every
    chat request alike, whatever the model, plan and authentication: no
    worker is started, and the stream is the error text as a content record,
    the error record with the message "Unknown error", and the terminal
    marker. *)
Theorem no_provider_configured
        (run : string -> ModelManager.model_config -> Z -> option ChatHandler.attempt)
        (env : ModelManager.environment) (model_id user_plan : string)
        (is_authenticated : bool) (timeout : Z) :
  ModelManager.groq_client (ModelManager.init env) = None ->
  ModelManager.google_client (ModelManager.init env) = None ->
  ChatHandler.stream_response run (ModelManager.init env) model_id user_plan
                              is_authenticated timeout
    = Some ([ChatHandler.Yielded
               (ChatHandler.error_fragment
                  "All available models failed. Last error: Unknown error")],
            ChatHandler.Raised
              (mkExn ExceptionC "All available models failed. Last error: Unknown error")) /\
  App.generate run (ModelManager.init env) model_id user_plan is_authenticated (Ok timeout)
    = Some [ App.Content
               (ChatHandler.error_fragment
                  "All available models failed. Last error: Unknown error");
             App.Error "All available models failed. Last error: Unknown error" "api_error";
             App.Done ].
Proof.
  intros Hgroq Hgoogle.
  assert (Hnone : forall m cfg,
             ModelManager.get_model_config (ModelManager.init env) m = Some cfg ->
             ModelManager.get_client (ModelManager.init env) m = Ok None).
  { intros m cfg Hcfg. destruct (init_get_client env m cfg Hcfg) as [c [Hc Hsome]].
    rewrite Hc. f_equal.
    assert (Hav : ModelManager.client_available (ModelManager.init env) cfg = false).
    { unfold ModelManager.client_available. rewrite Hgroq, Hgoogle. simpl.
      rewrite !andb_false_r. now repeat destruct (String.eqb _ _). }
    rewrite Hav in Hsome. now destruct c. }
  assert (Hunattemptable : forall m, ChatHandler.attemptable (ModelManager.init env) m = false).
  { intros m. unfold ChatHandler.attemptable.
    destruct (ModelManager.get_model_config (ModelManager.init env) m) as [cfg|] eqn:Hcfg;
      [|reflexivity].
    now rewrite (Hnone m cfg Hcfg). }
  destruct (init_fallback_attemptable env model_id user_plan is_authenticated)
    as [fallback [Hfb Hall]].
  assert (fallback = []) as ->.
  { destruct fallback as [|m l]; [reflexivity|].
    specialize (Hall m (or_introl eq_refl)). rewrite Hunattemptable in Hall. discriminate. }
  assert (Hresp : ChatHandler.stream_response run (ModelManager.init env) model_id user_plan
                              is_authenticated timeout
    = Some ([ChatHandler.Yielded
               (ChatHandler.error_fragment
                  "All available models failed. Last error: Unknown error")],
            ChatHandler.Raised
              (mkExn ExceptionC "All available models failed. Last error: Unknown error"))).
  { unfold ChatHandler.stream_response, ChatHandler.models_to_try. rewrite Hfb.
    cbn [ChatHandler.try_models].
    destruct (ModelManager.get_model_config (ModelManager.init env) model_id) as [cfg|] eqn:Hcfg;
      [|reflexivity].
    now rewrite (Hnone model_id cfg Hcfg). }
  split; [exact Hresp|]. unfold App.generate. now rewrite Hresp.
Qed.

Lemma no_provider_configured_witness :
  App.generate (fun _ _ _ => None)
               (ModelManager.init (ModelManager.mkEnv None None None (Some "your-key") true true))
               "llama-3.3-70b" "pro" true (Ok 30)
    = Some [ App.Content
               (ChatHandler.error_fragment
                  "All available models failed. Last error: Unknown error");
             App.Error "All available models failed. Last error: Unknown error" "api_error";
             App.Done ].
Proof.
  apply (no_provider_configured
           (fun _ _ _ => None)
           (ModelManager.mkEnv None None None (Some "your-key") true true)
           "llama-3.3-70b" "pro" true 30); reflexivity.
Defined.

(** *** Plans *)

(** One case per entry of the registry. *)
Ltac registry_cases H :=
  simpl in H;
  repeat (destruct H as [H|H]; [subst|]); [..|contradiction].

(** X7.  The plans nest.  With the registry of [__init__], whatever the
    free plan lists (authenticated or not) every plan lists, an unknown plan
    name included; whatever any plan lists the enterprise plan lists;
    the pro plan lists what the standard plan lists; and outside the free
    plan the authentication flag changes nothing. *)
Theorem plans_nest (env : ModelManager.environment) (user_plan : string)
        (is_authenticated is_authenticated' : bool) (a : ModelManager.available_model) :
  (In a (ModelManager.get_available_models (ModelManager.init env) "free" is_authenticated) ->
   In a (ModelManager.get_available_models (ModelManager.init env) user_plan
                                           is_authenticated')) /\
  (In a (ModelManager.get_available_models (ModelManager.init env) user_plan
                                           is_authenticated) ->
   In a (ModelManager.get_available_models (ModelManager.init env) "enterprise"
                                           is_authenticated')) /\
  (In a (ModelManager.get_available_models (ModelManager.init env) "standard"
                                           is_authenticated) ->
   In a (ModelManager.get_available_models (ModelManager.init env) "pro"
                                           is_authenticated')) /\
  (user_plan <> "free" ->
   ModelManager.get_available_models (ModelManager.init env) user_plan is_authenticated
   = ModelManager.get_available_models (ModelManager.init env) user_plan is_authenticated').
Proof.
  split; [|split; [|split]].
  - intros H. apply get_available_models_In in H.
    destruct H as [entry [Hin [Hcat [Hexcl ->]]]].
    apply get_available_models_In. exists entry. split; [exact Hin|].
    split; [|split; [|reflexivity]];
      registry_cases Hin; try discriminate Hcat;
        try (destruct is_authenticated; discriminate Hexcl);
        unfold ModelManager.provider_excluded, Py.dict_get_default; simpl;
        repeat destruct (String.eqb user_plan _); try reflexivity;
        destruct is_authenticated'; reflexivity.
  - intros H. apply get_available_models_In in H.
    destruct H as [entry [Hin [Hcat [Hexcl ->]]]].
    apply get_available_models_In. exists entry. split; [exact Hin|].
    split; [|split; [|reflexivity]]; registry_cases Hin; reflexivity.
  - intros H. apply get_available_models_In in H.
    destruct H as [entry [Hin [Hcat [Hexcl ->]]]].
    apply get_available_models_In. exists entry. split; [exact Hin|].
    split; [|split; [|reflexivity]]; registry_cases Hin;
      try discriminate Hcat; reflexivity.
  - intros Hplan. unfold ModelManager.get_available_models.
    apply flat_map_ext. intros entry.
    unfold ModelManager.provider_excluded.
    destruct (String.eqb_spec user_plan "free") as [Heq|_]; [contradiction | reflexivity].
Qed.

(** ** The documentation routes *)

Section Candidates.

Let step (models_to_try : list string) (model_id : string) : list string :=
  if negb (Py.mem model_id models_to_try) then (models_to_try ++ [model_id])%list
  else models_to_try.

Lemma append_missing_spec (l : list string) :
  forall acc, NoDup acc ->
    NoDup (fold_left step l acc) /\
    (forall m, In m (fold_left step l acc) <-> In m acc \/ In m l) /\
    exists rest,
      fold_left step l acc = (acc ++ rest)%list /\
      (forall m, In m rest -> In m l /\ ~ In m acc).
Proof.
  induction l as [|x l IH]; intros acc Hnd; simpl.
  - split; [exact Hnd|]. split; [intros m; tauto|].
    exists []. split; [now rewrite app_nil_r | intros m []].
  - unfold step at 2 4 6. destruct (Py.mem x acc) eqn:Hmem; simpl.
    + apply mem_In in Hmem. destruct (IH acc Hnd) as [H1 [H2 [rest [H3 H4]]]].
      split; [exact H1|]. split.
      * intros m. rewrite H2. intuition (subst; auto).
      * exists rest. split; [exact H3|]. intros m Hm. destruct (H4 m Hm). auto.
    + assert (Hnotin : ~ In x acc).
      { intros Hin. apply mem_In in Hin. congruence. }
      assert (Hnd' : NoDup (acc ++ [x])).
      { apply NoDup_app; [exact Hnd | repeat constructor; intros [] |].
        intros y Hy [<-|[]]. contradiction. }
      destruct (IH (acc ++ [x])%list Hnd') as [H1 [H2 [rest [H3 H4]]]].
      split; [exact H1|]. split.
      * intros m. rewrite H2, in_app_iff. simpl. tauto.
      * exists (x :: rest). split; [now rewrite H3, <- app_assoc|].
        intros m [<-|Hm]; [auto|].
        destruct (H4 m Hm) as [Hl Hacc]. split; [auto|].
        intros Hin. apply Hacc. apply in_app_iff. now left.
Qed.

End Candidates.

(** X8.  The candidates of the documentation routes are the available
    model ids, each once: first the preferred models that are available, in
    the order llama-3.3-70b, mixtral-8x7b, gemini-pro, then the other
    available ids; there is no candidate exactly when no model is
    available. *)
Theorem documentation_candidates (available_model_ids : list string) :
  NoDup (App.documentation_models_to_try available_model_ids) /\
  (forall m, In m (App.documentation_models_to_try available_model_ids) <->
             In m available_model_ids) /\
  (exists rest,
      App.documentation_models_to_try available_model_ids
      = (filter (fun m => Py.mem m available_model_ids) App.preferred_models ++ rest)%list /\
      forall m, In m rest -> ~ In m App.preferred_models) /\
  (App.documentation_models_to_try available_model_ids = [] <-> available_model_ids = []).
Proof.
  unfold App.documentation_models_to_try.
  set (first := filter (fun m => Py.mem m available_model_ids) App.preferred_models).
  assert (Hfirst : forall m, In m first <-> In m App.preferred_models /\ In m available_model_ids).
  { intros m. unfold first. rewrite filter_In, mem_In. reflexivity. }
  assert (Hnd : NoDup first).
  { apply NoDup_filter. unfold App.preferred_models.
    repeat (constructor; [simpl; intros H;
                          repeat (destruct H as [H|H]; [discriminate H|]); exact H|]).
    constructor. }
  destruct (append_missing_spec available_model_ids first Hnd) as [H1 [H2 [rest [H3 H4]]]].
  assert (Hin : forall m,
             In m (fold_left
                     (fun models_to_try model_id =>
                        if negb (Py.mem model_id models_to_try)
                        then (models_to_try ++ [model_id])%list else models_to_try)
                     available_model_ids first) <-> In m available_model_ids).
  { intros m. rewrite H2, Hfirst. tauto. }
  split; [exact H1|]. split; [exact Hin|]. split.
  - exists rest. split; [exact H3|]. intros m Hm Hpref.
    destruct (H4 m Hm) as [Hl Hacc]. apply Hacc. apply Hfirst. auto.
  - split.
    + intros Hnil. destruct available_model_ids as [|x l]; [reflexivity|].
      exfalso. assert (Hx : In x (x :: l)) by now left.
      apply Hin in Hx. rewrite Hnil in Hx. exact Hx.
    + intros ->. reflexivity.
Qed.

Section DocChat.

Variable model_manager : ModelManager.t.
Variable stream_of : string -> ChatHandler.provider_stream.

Lemma doc_stream_blocked (kind : string) (todo : ChatHandler.provider_stream) :
  ChatHandler.completes_by todo = true -> snd (App.doc_stream kind todo) <> App.Blocked.
Proof.
  induction todo as [|[t [content| |e]] todo IH]; simpl; try discriminate.
  intros H. specialize (IH H). now destruct (App.doc_stream kind todo).
Qed.

(** The records of [generate]: the chunks of the candidates called, in
    order, up to the first whose stream finishes, then the terminal marker,
    with an error record before it when no stream finishes. *)
Lemma doc_generate_spec (models : list string) :
  (forall m, In m models -> ChatHandler.completes_by (stream_of m) = true) ->
  forall last_error,
  exists recs last,
    App.doc_generate model_manager stream_of models last_error = Some recs /\
    recs
    = (map App.DocContent
           (flat_map (fun m => fst (App.doc_run model_manager stream_of m))
                     (ChatHandler.upto_first
                        (App.doc_finishes model_manager stream_of)
                        (filter (App.doc_candidate model_manager) models)))
         ++ (if existsb (App.doc_finishes model_manager stream_of)
                        (filter (App.doc_candidate model_manager) models)
             then [App.DocDone]
             else [App.DocError (ChatHandler.all_failed_msg last); App.DocDone]))%list.
Proof.
  induction models as [|m models IH]; intros Hends last_error.
  - exists [App.DocError (ChatHandler.all_failed_msg last_error); App.DocDone], last_error.
    split; reflexivity.
  - assert (Hends' : forall m', In m' models ->
                                ChatHandler.completes_by (stream_of m') = true)
      by (intros; apply Hends; now right).
    specialize (IH Hends').
    cbn [App.doc_generate filter].
    destruct (ModelManager.get_model_config model_manager m) as [cfg|] eqn:Hcfg.
    2:{ assert (Hno : App.doc_candidate model_manager m = false)
          by (unfold App.doc_candidate; now rewrite Hcfg).
        rewrite Hno. apply IH. }
    destruct (ModelManager.get_client model_manager m) as [[client|]|e] eqn:Hclient.
    2:{ assert (Hno : App.doc_candidate model_manager m = false)
          by (unfold App.doc_candidate; now rewrite Hcfg, Hclient).
        rewrite Hno. apply IH. }
    2:{ assert (Hno : App.doc_candidate model_manager m = false)
          by (unfold App.doc_candidate; now rewrite Hcfg, Hclient).
        rewrite Hno. apply IH. }
    destruct (ChatHandler.known_client (ModelManager.client cfg)) eqn:Hknown.
    2:{ assert (Hno : App.doc_candidate model_manager m = false)
          by (unfold App.doc_candidate; now rewrite Hcfg, Hclient).
        rewrite Hno. apply IH. }
    assert (Hyes : App.doc_candidate model_manager m = true)
      by (unfold App.doc_candidate; now rewrite Hcfg, Hclient).
    rewrite Hyes. cbn [ChatHandler.upto_first existsb].
    assert (Hrun : App.doc_run model_manager stream_of m
                   = App.doc_stream (ModelManager.client cfg) (stream_of m))
      by (unfold App.doc_run; now rewrite Hcfg).
    pose proof (doc_stream_blocked (ModelManager.client cfg) (stream_of m)
                                   (Hends m (or_introl eq_refl))) as Hnotblocked.
    unfold App.doc_finishes at 1 3. rewrite Hrun.
    destruct (App.doc_stream (ModelManager.client cfg) (stream_of m)) as [chunks e] eqn:Hstream.
    cbn [fst snd] in *. destruct e as [|err|]; [| |contradiction].
    + exists (map App.DocContent chunks ++ [App.DocDone])%list, last_error.
      split; [reflexivity|]. cbn [flat_map]. rewrite Hrun. cbn [fst].
      now rewrite app_nil_r.
    + destruct (IH (Some (exn_str err))) as [recs [last [Hgen Hrecs]]].
      rewrite Hgen. cbn [option_map]. exists (map App.DocContent chunks ++ recs)%list, last.
      split; [reflexivity|]. rewrite Hrecs. cbn [flat_map]. rewrite Hrun. cbn [fst].
      now rewrite map_app, <- app_assoc.
Qed.

End DocChat.

(** X9.  When every provider call comes to an end, the generator of
    [documentation_chat] does: its records are the chunks of the candidates
    it calls, in order, up to the first whose stream finishes (the chunks a
    failed candidate delivered stay in the stream, followed without notice
    by those of the next), then exactly one terminal marker, with one error
    record before it exactly when no stream finishes. *)
Theorem documentation_chat_stream (model_manager : ModelManager.t)
        (stream_of : string -> ChatHandler.provider_stream) (models_to_try : list string) :
  (forall m, In m models_to_try -> ChatHandler.completes_by (stream_of m) = true) ->
  exists recs last,
    App.doc_generate model_manager stream_of models_to_try None = Some recs /\
    recs
    = (map App.DocContent
           (flat_map (fun m => fst (App.doc_run model_manager stream_of m))
                     (ChatHandler.upto_first
                        (App.doc_finishes model_manager stream_of)
                        (filter (App.doc_candidate model_manager) models_to_try)))
         ++ (if existsb (App.doc_finishes model_manager stream_of)
                        (filter (App.doc_candidate model_manager) models_to_try)
             then [App.DocDone]
             else [App.DocError (ChatHandler.all_failed_msg last); App.DocDone]))%list.
Proof.
  intros Hends. now apply doc_generate_spec.
Qed.

Lemma documentation_chat_stream_witness :
  exists recs,
    App.doc_generate
      (ModelManager.init (ModelManager.mkEnv None None (Some "gsk_live") None true true))
      (fun m => if String.eqb m "llama-3.3-70b"
                then [(0, ChatHandler.Chunk "par"); (0, ChatHandler.Raises (mkExn ExceptionC "503"))]
                else [(0, ChatHandler.Chunk "whole"); (0, ChatHandler.Exhausted)])
      ["llama-3.3-70b"; "mixtral-8x7b"] None = Some recs /\
    recs = [App.DocContent "par"; App.DocContent "whole"; App.DocDone].
Proof.
  destruct (documentation_chat_stream
              (ModelManager.init (ModelManager.mkEnv None None (Some "gsk_live") None true true))
              (fun m => if String.eqb m "llama-3.3-70b"
                        then [(0, ChatHandler.Chunk "par");
                              (0, ChatHandler.Raises (mkExn ExceptionC "503"))]
                        else [(0, ChatHandler.Chunk "whole"); (0, ChatHandler.Exhausted)])
              ["llama-3.3-70b"; "mixtral-8x7b"])
    as [recs [last [Hgen Hrecs]]].
  - intros m [<-|[<-|[]]]; reflexivity.
  - exists recs. split; [exact Hgen|]. rewrite Hrecs. reflexivity.
Defined.

(** ** The analysis routes *)

Lemma has_severity_exclusive (v : App.vulnerability) :
  let n := ((if App.has_severity "critical" v then 1 else 0)
            + (if App.has_severity "high" v then 1 else 0)
            + (if App.has_severity "medium" v then 1 else 0)
            + (if App.has_severity "low" v then 1 else 0))%nat in
  (n <= 1)%nat /\
  (n = 1%nat <->
   existsb (fun level => App.has_severity level v) ["critical"; "high"; "medium"; "low"] = true).
Proof.
  unfold App.has_severity. simpl.
  destruct (Py.dict_get v "severity") as [[s| | |]|]; simpl;
    try (split; [lia | split; [lia | discriminate]]).
  destruct (String.eqb_spec s "critical") as [->|_]; simpl;
    [split; [lia | split; auto]|].
  destruct (String.eqb_spec s "high") as [->|_]; simpl;
    [split; [lia | split; auto]|].
  destruct (String.eqb_spec s "medium") as [->|_]; simpl;
    [split; [lia | split; auto]|].
  destruct (String.eqb_spec s "low") as [->|_]; simpl;
    [split; [lia | split; auto]|].
  split; [lia | split; [lia | discriminate]].
Qed.

(** X10.  The four counts of the summary never add up to more than the
    number of vulnerabilities, and they add up to it exactly when every
    vulnerability has one of the severities critical, high, medium and low:
    a vulnerability with another severity, or none, is returned in the list
    and counted nowhere. *)
Theorem summary_counts (vulnerabilities : list App.vulnerability) :
  (App.critical (App.summarize vulnerabilities) + App.high (App.summarize vulnerabilities)
   + App.medium (App.summarize vulnerabilities) + App.low (App.summarize vulnerabilities)
   <= List.length vulnerabilities)%nat /\
  ((App.critical (App.summarize vulnerabilities) + App.high (App.summarize vulnerabilities)
    + App.medium (App.summarize vulnerabilities) + App.low (App.summarize vulnerabilities)
    = List.length vulnerabilities)%nat <->
   Forall (fun v => existsb (fun level => App.has_severity level v)
                            ["critical"; "high"; "medium"; "low"] = true)
          vulnerabilities).
Proof.
  unfold App.summarize. cbn [App.critical App.high App.medium App.low].
  induction vulnerabilities as [|v vs [IHle IHeq]].
  - simpl. split; [lia|]. split; [constructor | reflexivity].
  - pose proof (has_severity_exclusive v) as Hv. cbn zeta in Hv.
    destruct Hv as [Hle Hone]. cbn [filter List.length].
    destruct (App.has_severity "critical" v), (App.has_severity "high" v),
             (App.has_severity "medium" v), (App.has_severity "low" v);
      cbn [List.length] in *; try lia;
      (split; [lia|]); rewrite Forall_cons_iff, <- IHeq, <- Hone; lia.
Qed.

(** X11.  The retry loop of [analyze_security] for one model and one file
    sends at least one and at most three requests.  It ends with the parsed
    answer of the last request when one parses.  When no request meets a
    rate limit, it sleeps 5 s after the first failure and 10 s after the
    second, and not at all after the third.  And when the first request
    meets a rate limit whose message names a wait, it sleeps that wait plus
    two seconds before it sends the second request. *)
Theorem retry_bounds (call : nat -> App.call_result) (wait_time_match : string -> option Z) :
  (1 <= App.calls (fst (App.retry call wait_time_match)) <= 3)%nat /\
  (forall file_vulns,
      snd (App.retry call wait_time_match) = Some file_vulns ->
      exists n evs,
        (n < 3)%nat /\ call n = App.Parsed file_vulns /\
        fst (App.retry call wait_time_match) = (evs ++ [App.Called n])%list) /\
  ((forall n error_str, call n = App.CallRaises error_str ->
                        App.is_rate_limit_error error_str = false) ->
   (snd (App.retry call wait_time_match) = None ->
    fst (App.retry call wait_time_match)
    = [App.Called 0; App.Sleep 5000; App.Called 1; App.Sleep 10000; App.Called 2]) /\
   0 <= App.slept (fst (App.retry call wait_time_match)) <= 15000) /\
  (forall error_str w,
      call 0%nat = App.CallRaises error_str ->
      App.is_rate_limit_error error_str = true ->
      wait_time_match error_str = Some w ->
      exists evs,
        fst (App.retry call wait_time_match)
        = (App.Called 0 :: App.Sleep (w + 2000) :: App.Called 1 :: evs)%list).
Proof.
  unfold App.retry. cbn [App.retry_loop App.max_retries Nat.ltb Nat.leb Nat.sub].
  split; [|split; [|split]].
  - unfold App.calls.
    destruct (call 0%nat) as [v0| |e0]; [simpl; lia | |];
      (destruct (call 1%nat) as [v1| |e1]; [repeat destruct (App.is_rate_limit_error _);
                                            simpl; lia | |]);
      (destruct (call 2%nat) as [v2| |e2]);
      repeat destruct (App.is_rate_limit_error _); simpl; lia.
  - intros file_vulns.
    destruct (call 0%nat) as [v0| |e0] eqn:H0.
    + intros [= <-]. exists 0%nat, []. auto.
    + destruct (call 1%nat) as [v1| |e1] eqn:H1.
      * intros [= <-]. exists 1%nat, [App.Called 0; App.Sleep 5000]. auto.
      * destruct (call 2%nat) as [v2| |e2] eqn:H2; simpl;
          repeat destruct (App.is_rate_limit_error _); simpl; try discriminate.
        intros [= <-]. eexists 2%nat, _. repeat split; [lia | exact H2 |].
        instantiate (1 := [App.Called 0; App.Sleep 5000; App.Called 1; App.Sleep 10000]).
        reflexivity.
      * destruct (App.is_rate_limit_error e1);
          (destruct (call 2%nat) as [v2| |e2] eqn:H2; simpl;
           repeat destruct (App.is_rate_limit_error _); simpl; try discriminate;
           intros [= <-]; eexists 2%nat, _; repeat split; [lia | exact H2 |];
           match goal with
           | |- (?a :: ?b :: ?c :: ?d :: [?e]) = _ =>
               instantiate (1 := [a; b; c; d]); reflexivity
           end).
    + destruct (App.is_rate_limit_error e0);
        (destruct (call 1%nat) as [v1| |e1] eqn:H1;
         [ simpl; intros [= <-]; eexists 1%nat, _; repeat split; [lia | exact H1 |];
           match goal with
           | |- (?a :: ?b :: [?c]) = _ => instantiate (1 := [a; b]); reflexivity
           end
         | | ]);
        repeat destruct (App.is_rate_limit_error _);
        (destruct (call 2%nat) as [v2| |e2] eqn:H2; simpl;
         repeat destruct (App.is_rate_limit_error _); simpl; try discriminate;
         intros [= <-]; eexists 2%nat, _; repeat split; [lia | exact H2 |];
         match goal with
         | |- (?a :: ?b :: ?c :: ?d :: [?e]) = _ =>
             instantiate (1 := [a; b; c; d]); reflexivity
         end).
  - intros Hnorl.
    destruct (call 0%nat) as [v0| |e0] eqn:H0;
      [simpl; split; [discriminate | lia] | |];
      try rewrite (Hnorl _ _ H0);
      (destruct (call 1%nat) as [v1| |e1] eqn:H1;
       [simpl; split; [discriminate | lia] | |]);
      try rewrite (Hnorl _ _ H1);
      (destruct (call 2%nat) as [v2| |e2] eqn:H2);
      try rewrite (Hnorl _ _ H2);
      simpl; (split; [try discriminate; reflexivity | lia]).
  - intros error_str w H0 Hrl Hw. rewrite H0, Hrl, Hw.
    destruct (call 1%nat) as [v1| |e1]; [simpl; now eexists | |];
      repeat destruct (App.is_rate_limit_error _);
      destruct (call 2%nat) as [v2| |e2];
      repeat destruct (App.is_rate_limit_error _); simpl; now eexists.
Qed.

(** ** The fence around a model's JSON answer *)

Lemma str_app_assoc (x y z : string) : ((x ++ y) ++ z = x ++ (y ++ z))%string.
Proof. induction x as [|c x IH]; simpl; [reflexivity | now rewrite IH]. Qed.

Lemma str_app_nil_r (x : string) : (x ++ "" = x)%string.
Proof. induction x as [|c x IH]; simpl; [reflexivity | now rewrite IH]. Qed.

Lemma str_length_app (x y : string) :
  String.length (x ++ y) = (String.length x + String.length y)%nat.
Proof. induction x as [|c x IH]; simpl; [reflexivity | now rewrite IH]. Qed.

Lemma strip_is_empty_app (w w' : string) :
  Py.strip_is_empty w = true -> Py.strip_is_empty w' = true ->
  Py.strip_is_empty (w ++ w') = true.
Proof.
  induction w as [|c w IH]; simpl; [auto|].
  intros [Hc Hw]%andb_true_iff Hw'. rewrite Hc. simpl. auto.
Qed.

Lemma lstrip_core (w X : string) (a : ascii) :
  Py.strip_is_empty w = true -> Py.is_space a = false ->
  Py.lstrip (w ++ String a X) = String a X.
Proof.
  intros Hw Ha. induction w as [|c w IH]; simpl.
  - now rewrite Ha.
  - simpl in Hw. apply andb_true_iff in Hw as [Hc Hw]. rewrite Hc. auto.
Qed.

Lemma rstrip_white (w : string) : Py.strip_is_empty w = true -> Py.rstrip w = "".
Proof.
  induction w as [|c w IH]; simpl; [reflexivity|].
  intros [Hc Hw]%andb_true_iff. now rewrite (IH Hw), Hc.
Qed.

Lemma rstrip_core (X w : string) (b : ascii) :
  Py.strip_is_empty w = true -> Py.is_space b = false ->
  Py.rstrip (X ++ String b w) = (X ++ String b "")%string.
Proof.
  intros Hw Hb. induction X as [|c X IH]; simpl.
  - now rewrite (rstrip_white w Hw), Hb.
  - rewrite IH. destruct X; reflexivity.
Qed.

Lemma prefix_app (p X : string) : prefix p (p ++ X) = true.
Proof.
  induction p as [|c p IH]; simpl.
  - now destruct X.
  - destruct (ascii_dec c c); [exact IH | congruence].
Qed.

Lemma prefix_head_neq (c d : ascii) (p X : string) :
  c <> d -> prefix (String c p) (String d X) = false.
Proof. intros Hcd. simpl. destruct (ascii_dec c d); [congruence | reflexivity]. Qed.

Lemma drop_app (p X : string) : Py.drop (String.length p) (p ++ X) = X.
Proof. induction p as [|c p IH]; simpl; [now destruct X | exact IH]. Qed.

Lemma endswith_app (p X : string) : Py.endswith p (X ++ p) = true.
Proof.
  induction X as [|c X IH].
  - simpl. destruct p; simpl; [reflexivity|]. now rewrite Ascii.eqb_refl, String.eqb_refl.
  - cbn [String.append Py.endswith]. rewrite IH. apply orb_true_r.
Qed.

Lemma endswith_inv (p s : string) :
  Py.endswith p s = true -> exists X, s = (X ++ p)%string.
Proof.
  induction s as [|c s IH]; cbn [Py.endswith].
  - rewrite orb_false_r. intros ->%String.eqb_eq. now exists "".
  - intros [->%String.eqb_eq|H]%orb_true_iff; [now exists ""|].
    destruct (IH H) as [X ->]. now exists (String c X).
Qed.

Lemma app_last_inj (X Y : string) (c d : ascii) :
  (X ++ String c "" = Y ++ String d "")%string -> c = d.
Proof.
  revert Y. induction X as [|x X IH]; intros [|y Y]; simpl; intros [= ]; subst; auto.
  - destruct Y; discriminate.
  - destruct X; discriminate.
  - eauto.
Qed.

Lemma endswith_last_neq (p X : string) (c d : ascii) :
  c <> d -> Py.endswith (p ++ String c "") (X ++ String d "") = false.
Proof.
  intros Hcd. destruct (Py.endswith _ _) eqn:H; [|reflexivity].
  apply endswith_inv in H as [Y H]. rewrite <- str_app_assoc in H.
  apply app_last_inj in H. congruence.
Qed.

Lemma drop_last_app (p X : string) : Py.drop_last (String.length p) (X ++ p) = X.
Proof.
  induction X as [|c X IH]; cbn [String.append].
  - destruct p as [|d p]; [reflexivity|]. cbn [Py.drop_last String.length].
    now rewrite (proj2 (Nat.ltb_lt _ _) (Nat.lt_succ_diag_r _)).
  - cbn [Py.drop_last]. rewrite IH, str_length_app.
    now rewrite (proj2 (Nat.ltb_ge _ _) (Nat.le_add_l _ _)).
Qed.

Lemma json_edge_spec (c : ascii) :
  App.json_edge c = true -> Py.is_space c = false /\ c <> "`"%char.
Proof.
  unfold App.json_edge, Py.is_space. intros H. split.
  - destruct (N_of_ascii c =? 32)%N eqn:H1, (9 <=? N_of_ascii c)%N eqn:H2,
             (N_of_ascii c <=? 13)%N eqn:H3, (28 <=? N_of_ascii c)%N eqn:H4,
             (N_of_ascii c <=? 31)%N eqn:H5; try reflexivity; exfalso;
      destruct (33 <=? N_of_ascii c)%N eqn:H6; try discriminate;
      rewrite ?N.eqb_eq, ?N.leb_le in *; lia.
  - intros ->. discriminate.
Qed.

Lemma space_not_backquote (c : ascii) (p X : string) :
  Py.is_space c = true -> prefix (String "`" p) (String c X) = false.
Proof. intros Hc. apply prefix_head_neq. intros <-. discriminate. Qed.

Lemma space_not_j (c : ascii) (p X : string) :
  Py.is_space c = true -> prefix (String "j" p) (String c X) = false.
Proof. intros Hc. apply prefix_head_neq. intros <-. discriminate. Qed.

Ltac str_norm := repeat first [rewrite str_app_assoc | progress cbn [String.append]].

Ltac reshape t :=
  match goal with
  | |- Py.strip ?u = _ => replace u with t by (str_norm; reflexivity)
  end.

Section Fences.

Variables (a b : ascii) (inner : string).
Hypothesis Ha : App.json_edge a = true.
Hypothesis Hb : App.json_edge b = true.

Lemma strip_outer (w w' mid : string) (c d : ascii) :
  Py.strip_is_empty w = true -> Py.strip_is_empty w' = true ->
  Py.is_space c = false -> Py.is_space d = false ->
  Py.strip (w ++ String c (mid ++ String d w')) = String c (mid ++ String d "").
Proof.
  intros Hw Hw' Hc Hd. unfold Py.strip. rewrite (lstrip_core w _ c Hw Hc).
  change (String c (mid ++ String d w')) with (String c mid ++ String d w')%string.
  now rewrite (rstrip_core _ w' d Hw' Hd).
Qed.

Lemma first_strip (w1 w2 w3 w4 opener closer : string) :
  Py.strip_is_empty w1 = true -> Py.strip_is_empty w2 = true ->
  Py.strip_is_empty w3 = true -> Py.strip_is_empty w4 = true ->
  In opener ["```json"; "```"; ""] -> In closer ["```"; ""] ->
  Py.strip (w1 ++ opener ++ w2 ++ String a (inner ++ String b "") ++ w3 ++ closer ++ w4)
  = (opener ++ (if String.eqb opener "" then "" else w2)
       ++ String a (inner ++ String b ((if String.eqb closer "" then "" else w3) ++ closer)))%string.
Proof.
  intros H1 H2 H3 H4 Ho Hc.
  destruct (json_edge_spec a Ha) as [Hsa _], (json_edge_spec b Hb) as [Hsb _].
  assert (Hbody : forall X, (String a (inner ++ String b "") ++ X
                             = String a (inner ++ String b X))%string).
  { intros X. cbn [String.append]. now rewrite str_app_assoc. }
  rewrite Hbody.
  destruct Ho as [<-|[<-|[<-|[]]]]; destruct Hc as [<-|[<-|[]]]; cbn [String.eqb String.append].
  - reshape (w1 ++ String "`" (("``json" ++ w2 ++ String a (inner ++ String b (w3 ++ "``")))
                                 ++ String "`" w4))%string.
    rewrite strip_outer by (auto; reflexivity). str_norm. reflexivity.
  - reshape (w1 ++ String "`" (("``json" ++ w2 ++ String a inner)
                                 ++ String b (w3 ++ w4)))%string.
    rewrite strip_outer by (auto using strip_is_empty_app; reflexivity). str_norm. reflexivity.
  - reshape (w1 ++ String "`" (("``" ++ w2 ++ String a (inner ++ String b (w3 ++ "``")))
                                 ++ String "`" w4))%string.
    rewrite strip_outer by (auto; reflexivity). str_norm. reflexivity.
  - reshape (w1 ++ String "`" (("``" ++ w2 ++ String a inner)
                                 ++ String b (w3 ++ w4)))%string.
    rewrite strip_outer by (auto using strip_is_empty_app; reflexivity). str_norm. reflexivity.
  - reshape ((w1 ++ w2) ++ String a ((inner ++ String b (w3 ++ "``")) ++ String "`" w4))%string.
    rewrite strip_outer by (auto using strip_is_empty_app; reflexivity). str_norm. reflexivity.
  - reshape ((w1 ++ w2) ++ String a (inner ++ String b (w3 ++ w4)))%string.
    now rewrite strip_outer by (auto using strip_is_empty_app).
Qed.

Lemma open_phase (opener U X : string) :
  In opener ["```json"; "```"; ""] -> Py.strip_is_empty U = true ->
  (opener = "" -> U = "") ->
  (opener = "```" -> U = "" -> a <> "j"%char) ->
  (if Py.startswith "```"
        (if Py.startswith "```json" (opener ++ U ++ String a X)
         then Py.drop 7 (opener ++ U ++ String a X)
         else (opener ++ U ++ String a X)%string)
   then Py.drop 3 (if Py.startswith "```json" (opener ++ U ++ String a X)
                   then Py.drop 7 (opener ++ U ++ String a X)
                   else (opener ++ U ++ String a X)%string)
   else (if Py.startswith "```json" (opener ++ U ++ String a X)
         then Py.drop 7 (opener ++ U ++ String a X)
         else (opener ++ U ++ String a X)%string))
  = (U ++ String a X)%string.
Proof.
  intros Ho HU Hnone Hj. destruct (json_edge_spec a Ha) as [_ Hqa].
  assert (Hq : forall p, prefix (String "`" p) (U ++ String a X) = false).
  { intros p. destruct U as [|u U']; cbn [String.append].
    - apply prefix_head_neq. congruence.
    - simpl in HU. apply andb_true_iff in HU as [Hu _]. now apply space_not_backquote. }
  unfold Py.startswith. destruct Ho as [<-|[<-|[<-|[]]]].
  - rewrite (prefix_app "```json"). change 7%nat with (String.length "```json").
    rewrite drop_app. now rewrite Hq.
  - assert (Hjson : prefix "```json" ("```" ++ U ++ String a X) = false).
    { change (prefix "json" (U ++ String a X) = false).
      destruct U as [|u U']; cbn [String.append].
      - apply prefix_head_neq. intros E. now apply (Hj eq_refl eq_refl).
      - simpl in HU. apply andb_true_iff in HU as [Hu _]. now apply space_not_j. }
    rewrite Hjson, (prefix_app "```"). change 3%nat with (String.length "```").
    now rewrite drop_app.
  - cbn [String.append]. now rewrite !Hq.
Qed.

Lemma close_phase (closer U V : string) :
  In closer ["```"; ""] -> Py.strip_is_empty U = true -> Py.strip_is_empty V = true ->
  (closer = "" -> V = "") ->
  Py.strip (if Py.endswith "```" (U ++ String a (inner ++ String b (V ++ closer)))
            then Py.drop_last 3 (U ++ String a (inner ++ String b (V ++ closer)))
            else (U ++ String a (inner ++ String b (V ++ closer)))%string)
  = String a (inner ++ String b "").
Proof.
  intros Hc HU HV Hnone.
  destruct (json_edge_spec a Ha) as [Hsa _], (json_edge_spec b Hb) as [Hsb Hqb].
  destruct Hc as [<-|[<-|[]]].
  - replace (U ++ String a (inner ++ String b (V ++ "```")))%string
      with ((U ++ String a (inner ++ String b V)) ++ "```")%string
      by (rewrite !str_app_assoc; cbn [String.append]; now rewrite !str_app_assoc).
    rewrite endswith_app. change 3%nat with (String.length "```").
    rewrite drop_last_app. now apply strip_outer.
  - rewrite (Hnone eq_refl). cbn [String.append].
    replace (U ++ String a (inner ++ String b ""))%string
      with ((U ++ String a inner) ++ String b "")%string
      by (rewrite !str_app_assoc; reflexivity).
    rewrite (endswith_last_neq "``" _ "`" b) by congruence.
    rewrite str_app_assoc. cbn [String.append]. now apply strip_outer.
Qed.

End Fences.

(** X12.  Taking the fence off is a round trip for a fenced JSON text.  Let
    the body start and end with a printable character other than the
    backquote, and let the answer be the body, with or without an opening
    fence (with or without the word json) before it and a closing fence
    after it, and with any white space around the fences and the body.
    Then the text that the analysis routes hand to [json.loads] is the
    body.  (After a fence without the word json, the body must not follow
    at once with the letter j.) *)
Theorem strip_fences_round_trip (w1 w2 w3 w4 inner opener closer : string) (a b : ascii) :
  Py.strip_is_empty w1 = true -> Py.strip_is_empty w2 = true ->
  Py.strip_is_empty w3 = true -> Py.strip_is_empty w4 = true ->
  App.json_edge a = true -> App.json_edge b = true ->
  In opener ["```json"; "```"; ""] -> In closer ["```"; ""] ->
  (opener = "```" -> w2 = "" -> a <> "j"%char) ->
  App.strip_fences
    (w1 ++ opener ++ w2 ++ String a (inner ++ String b "") ++ w3 ++ closer ++ w4)
  = String a (inner ++ String b "").
Proof.
  intros H1 H2 H3 H4 Ha Hb Ho Hc Hj. unfold App.strip_fences. cbv zeta.
  rewrite (first_strip a b inner Ha Hb w1 w2 w3 w4 opener closer H1 H2 H3 H4 Ho Hc).
  rewrite (open_phase a Ha opener).
  - apply (close_phase a b inner Ha Hb); auto.
    + destruct (String.eqb opener ""); auto.
    + destruct (String.eqb closer ""); auto.
    + now intros ->.
  - exact Ho.
  - destruct (String.eqb opener ""); auto.
  - now intros ->.
  - intros ->. cbn [String.eqb Ascii.eqb Bool.eqb]. auto.
Qed.

Lemma strip_fences_round_trip_witness :
  App.strip_fences
    (String "010" ("```json" ++ String "010" (String "{" ("" ++ String "}" "")
       ++ String "010" ("```" ++ " "))))
  = "{}"%string.
Proof.
  apply (strip_fences_round_trip (String "010" "") (String "010" "") (String "010" "") " "
           "" "```json" "```" "{" "}");
    try reflexivity; simpl; auto.
  intros [=].
Defined.

(** ** The generators without worker thread *)

Lemma iterate_spec (kind : string) (error_text : exn -> string)
      (todo : ChatHandler.provider_stream) :
  ChatHandler.iterate kind error_text todo
  = ((ChatHandler.enqueued_by kind todo
        ++ match ChatHandler.raises_by todo with
           | Some e => [error_text e]
           | None => []
           end)%list,
     ChatHandler.completes_by todo).
Proof.
  induction todo as [|[t [content| |e]] todo IH]; cbn; try reflexivity.
  rewrite IH. now destruct (ChatHandler.puts kind content).
Qed.

(** X13.  The four generators that iterate over the provider call
    themselves yield what the worker thread of [_stream_with_timeout] puts
    on the result queue for the same provider stream, in the same order;
    when the provider call raises they yield one more value, the error as
    text, and end normally: where the threaded attempt fails, they end as
    on success.  They end exactly when the worker would reach
    [completion_event.set()].  For Groq an error whose message holds "401"
    is replaced by a fixed text that does not show the message. *)
Theorem generators_without_thread (self : ModelManager.t) (model_id : string)
        (stream : ChatHandler.provider_stream) :
  let error_tail (error_text : exn -> string) :=
    match ChatHandler.raises_by stream with
    | Some e => [error_text e]
    | None => []
    end in
  ChatHandler._stream_openai stream
  = ((ChatHandler.enqueued "openai" stream ++ error_tail ChatHandler.plain_error_text)%list,
     ChatHandler.completes "openai" stream) /\
  ChatHandler._stream_anthropic stream
  = ((ChatHandler.enqueued "anthropic" stream ++ error_tail ChatHandler.plain_error_text)%list,
     ChatHandler.completes "anthropic" stream) /\
  ChatHandler._stream_google stream
  = ((ChatHandler.enqueued "google" stream ++ error_tail ChatHandler.plain_error_text)%list,
     ChatHandler.completes "google" stream) /\
  (forall model_config,
      ModelManager.get_model_config self model_id = Some model_config ->
      exists groq_model_name,
        ChatHandler._stream_groq self model_id stream
        = ((ChatHandler.enqueued "groq" stream
              ++ error_tail (ChatHandler.groq_error_text groq_model_name))%list,
           ChatHandler.completes "groq" stream)) /\
  (forall groq_model_name e,
      Py.contains "401" (exn_str e) = true ->
      ChatHandler.groq_error_text groq_model_name e
      = ChatHandler.groq_error_text groq_model_name (mkExn (exn_cls e) "401")).
Proof.
  cbv zeta. unfold ChatHandler._stream_openai, ChatHandler._stream_anthropic,
    ChatHandler._stream_google, ChatHandler._stream_groq,
    ChatHandler.enqueued, ChatHandler.completes.
  repeat split; try apply iterate_spec.
  - intros model_config ->. eexists. apply iterate_spec.
  - intros groq_model_name e H401. unfold ChatHandler.groq_error_text.
    cbn [exn_str]. rewrite H401, orb_true_r. reflexivity.
Qed.
